(** * The topic extractor of the podcast-research front end

    A shallow embedding of [pages/HomePage.jsx]: the function
    [extractTopicsWithSources], which turns the JSON body answered by
    [POST /api/research] into the list of topic cards, and the part of the
    [HomePage] component that calls it ([generateIdeas], the [useEffect]
    which persists the topics in [localStorage]).

    The code is JavaScript and its input is whatever [res.json()] parsed, so
    the embedding works on dynamically typed JSON values and keeps the
    ways in which the source can go wrong at run time: reading a property of
    [null] or [undefined], calling [.slice] on a value that has none,
    calling [.forEach] on something that is not an array, and converting an
    object that cannot be converted.  These raise a [TypeError], modelled by
    the [Throw] case of the [Result] monad.

    Numbers.  A JavaScript number is an IEEE binary64 double, and it is
    one here: [number] is the type [spec_float] of the Rocq library with a
    precision of 53 bits, and the division, the product and the comparisons
    of the source are the operations [SFdiv], [SFmul] and [SFcompare] of
    that library, with their rounding, their signed zeros, their
    infinities and their [NaN].  A decimal literal is the double nearest to
    it.

    Conversions.  [a > 10], [a / 100], [a * 100] and [Math.max(a, 0)]
    convert [a] to a number, and the conversion of an object calls its
    [toString] property: it raises a [TypeError] when a parsed JSON object
    carries a [toString] key of its own (whose value is never a function).
    This error path is kept as well. *)

From Corelib Require Import SpecFloat.
From stdpp Require Import gmap strings list pretty.

#[local] Open Scope string_scope.
#[local] Open Scope nat_scope.
#[local] Open Scope list_scope.
#[local] Open Scope stdpp_scope.

(** ** Numbers *)

Definition number : Type := spec_float.

Definition prec : Z := 53.
Definition emax : Z := 1024.

Definition NaN : number := S754_nan.

(** The double nearest to an integer (the integer itself below 2^53). *)
Definition of_Z (z : Z) : number := binary_normalize prec emax z 0 false.

Definition divide (x y : number) : number := SFdiv prec emax x y.
Definition multiply (x y : number) : number := SFmul prec emax x y.

(** [x < y] and [x <= y]; both are false when an operand is [NaN]. *)
Definition less (x y : number) : bool := SFltb x y.
Definition at_most (x y : number) : bool := SFleb x y.

(** The decimal literal with the digits [n] and [k] digits after the
    point, as in [0.8] or [28.5]: the double nearest to n / 10^k, which is
    the rounded quotient of the two integers. *)
Definition decimal (n : Z) (k : nat) : number :=
  divide (of_Z n) (of_Z (10 ^ Z.of_nat k)).

Definition is_negative_zero (x : number) : bool :=
  match x with
  | S754_zero true => true
  | _ => false
  end.

(** [Math.max] and [Math.min] of two numbers: [NaN] when one of them is
    [NaN], and -0 counts as smaller than +0. *)
Definition max_number (x y : number) : number :=
  match SFcompare x y with
  | None => NaN
  | Some Lt => y
  | Some Gt => x
  | Some Eq => if is_negative_zero x then y else x
  end.

Definition min_number (x y : number) : number :=
  match SFcompare x y with
  | None => NaN
  | Some Lt => x
  | Some Gt => y
  | Some Eq => if is_negative_zero y then y else x
  end.

(** [Math.round] of a number: the nearest integer, a tie going up.  A
    double m * 2^e with e >= 0 is an integer already; otherwise the result
    is the floor of x + 1/2 computed exactly, a zero result keeping the
    sign of x. *)
Definition round_number (x : number) : number :=
  match x with
  | S754_finite s m e =>
      if (0 <=? e)%Z then x
      else
        let n := ((cond_Zopp s (Z.pos m) + 2 ^ (- e - 1)) / 2 ^ (- e))%Z in
        match n with
        | Z0 => S754_zero s
        | _ => of_Z n
        end
  | _ => x
  end.

(** ** JavaScript values and the run-time operations the source uses *)

#[local] Unset Elimination Schemes.

(** A JSON value, plus [undefined] (what reading a missing property
    yields).  An object is a finite map from property names to values. *)
Inductive JsVal : Type :=
| JUndef
| JNull
| JBool (b : bool)
| JNum (n : number)
| JStr (s : string)
| JArr (l : list JsVal)
| JObj (m : gmap string JsVal).

#[local] Set Elimination Schemes.

(** An integer literal of the source. *)
Definition lit (z : Z) : JsVal := JNum (of_Z z).
Arguments lit z%_Z_scope.

(** An [Error] object; the message of an engine-raised error is the
    engine's own wording, on which nothing below depends. *)
Record JsError : Type := { name : string; message : string }.

Definition TypeError (message : string) : JsError :=
  {| name := "TypeError"; message := message |}.

Definition SyntaxError (message : string) : JsError :=
  {| name := "SyntaxError"; message := message |}.

Definition Error (message : string) : JsError :=
  {| name := "Error"; message := message |}.

Inductive Result (A : Type) : Type :=
| Ok (a : A)
| Throw (e : JsError).
Arguments Ok {A} a.
Arguments Throw {A} e.

#[export] Instance Result_ret : MRet Result := λ A a, Ok a.
#[export] Instance Result_bind : MBind Result := λ A B f r,
  match r with
  | Ok a => f a
  | Throw e => Throw e
  end.

(** [ToBoolean]: the falsy values are [undefined], [null], [false], [0],
    [NaN] and the empty string. *)
Definition ToBoolean (v : JsVal) : bool :=
  match v with
  | JUndef | JNull => false
  | JBool b => b
  | JNum (S754_zero _) | JNum S754_nan => false
  | JNum _ => true
  | JStr s => negb (String.eqb s "")
  | JArr _ | JObj _ => true
  end.

Definition nullish (v : JsVal) : bool :=
  match v with
  | JUndef | JNull => true
  | _ => false
  end.

(** [v.k] for the property names the source reads.  None of them is an own
    or inherited property of a primitive or of an array, so only objects
    can answer something else than [undefined]. *)
Definition get (v : JsVal) (k : string) : Result JsVal :=
  match v with
  | JUndef | JNull =>
      Throw (TypeError ("Cannot read properties of null or undefined (reading '" +:+ k +:+ "')"))
  | JObj m => Ok (default JUndef (m !! k))
  | _ => Ok JUndef
  end.

(** [v?.k] *)
Definition get_opt (v : JsVal) (k : string) : Result JsVal :=
  if nullish v then Ok JUndef else get v k.

(** [v.k1?.k2] *)
Definition get_chain (v : JsVal) (k1 k2 : string) : Result JsVal :=
  r ← get v k1; get_opt r k2.

(** [a || b]: the right operand is only looked at when the left one is
    falsy, so an exception it would raise is lost with it. *)
Definition or_else (a b : Result JsVal) : Result JsVal :=
  v ← a; if ToBoolean v then Ok v else b.

Notation "a ||| b" := (or_else a b) (at level 50, left associativity).

(** The property [toString] of an object that [JSON.parse] built is
    inherited from [Object.prototype] unless the object has a key of that
    name, whose value is then no function. *)
Definition own_toString (m : gmap string JsVal) : bool :=
  match m !! "toString" with
  | Some _ => true
  | None => false
  end.

Section Runtime.

(** The two conversions between strings and numbers of the language
    standard, which are not spelled out: [StringToNumber] and
    [Number::toString]. *)
Variable StringToNumber : string → number.
Variable NumberToString : number → string.

(** [ToString].  For an object this is [ToPrimitive]: the inherited
    [valueOf] answers the object itself, so [toString] decides; an own
    [toString] is not callable and a [TypeError] is raised, the inherited
    one answers "[object Object]".  For an array, [toString] is [join]:
    the elements that are not [null] or [undefined] are converted in turn
    and separated by commas. *)
Fixpoint ToString (v : JsVal) : Result string :=
  match v with
  | JUndef => Ok "undefined"
  | JNull => Ok "null"
  | JBool b => Ok (if b then "true" else "false")
  | JNum n => Ok (NumberToString n)
  | JStr s => Ok s
  | JArr l =>
      (fix join (l : list JsVal) : Result string :=
         match l with
         | [] => Ok ""
         | x :: l' =>
             first ← (if nullish x then Ok "" else ToString x);
             match l' with
             | [] => Ok first
             | _ => rest ← join l'; Ok (first +:+ "," +:+ rest)
             end
         end) l
  | JObj m =>
      if own_toString m
      then Throw (TypeError "Cannot convert object to primitive value")
      else Ok "[object Object]"
  end.

(** [ToNumber]; an array or an object goes through its string. *)
Definition ToNumber (v : JsVal) : Result number :=
  match v with
  | JUndef => Ok NaN
  | JNull => Ok (of_Z 0)
  | JBool b => Ok (if b then of_Z 1 else of_Z 0)
  | JNum n => Ok n
  | JStr s => Ok (StringToNumber s)
  | JArr _ | JObj _ => s ← ToString v; Ok (StringToNumber s)
  end.

(** [a > b] for a number [b]: [a] is converted, and the comparison is
    false when it is [NaN]. *)
Definition gt (a : JsVal) (b : number) : Result bool :=
  x ← ToNumber a; Ok (less b x).

(** [a / b] and [a * b] for a number [b]. *)
Definition div (a : JsVal) (b : number) : Result JsVal :=
  x ← ToNumber a; Ok (JNum (divide x b)).

Definition times (a : JsVal) (b : number) : Result JsVal :=
  x ← ToNumber a; Ok (JNum (multiply x b)).

Definition Math_max (a b : JsVal) : Result JsVal :=
  x ← ToNumber a; y ← ToNumber b; Ok (JNum (max_number x y)).

Definition Math_min (a b : JsVal) : Result JsVal :=
  x ← ToNumber a; y ← ToNumber b; Ok (JNum (min_number x y)).

Definition Math_round (a : JsVal) : Result JsVal :=
  x ← ToNumber a; Ok (JNum (round_number x)).

End Runtime.

(** [Array.prototype.slice(start, end)] with non-negative integer
    arguments: [k] is [start] and [final] is [end], both capped at the
    length, and the elements at the indices [k], [k+1], ... below [final]
    are copied in order. *)
Definition slice_indices (len start end_ : nat) : list nat :=
  let k := start `min` len in
  let final := end_ `min` len in
  seq k (final - k).

Definition Array_slice (l : list JsVal) (start end_ : nat) : list JsVal :=
  omap (λ k, l !! k) (slice_indices (length l) start end_).

(** [String.prototype.slice] on the same arguments, a string being its
    sequence of code units. *)
Definition String_slice (s : string) (start end_ : nat) : string :=
  let k := start `min` String.length s in
  let final := end_ `min` String.length s in
  String.substring k (final - k) s.

(** The method call [v.slice(start, end)]. *)
Definition slice (v : JsVal) (start end_ : nat) : Result JsVal :=
  match v with
  | JArr l => Ok (JArr (Array_slice l start end_))
  | JStr s => Ok (JStr (String_slice s start end_))
  | JUndef | JNull =>
      Throw (TypeError "Cannot read properties of null or undefined (reading 'slice')")
  | _ => Throw (TypeError "slice is not a function")
  end.

(** [l.forEach((x, index) => ...)] for a callback that updates a state
    [S]; an exception in the callback ends the loop. *)
Fixpoint forEach_from {S : Type} (f : JsVal → nat → S → Result S)
    (l : list JsVal) (index : nat) (s : S) : Result S :=
  match l with
  | [] => Ok s
  | x :: l' => s' ← f x index s; forEach_from f l' (index + 1) s'
  end.

(** The method call [v.forEach(f)]: only arrays have the method. *)
Definition forEach {S : Type} (v : JsVal) (f : JsVal → nat → S → Result S)
    (s : S) : Result S :=
  match v with
  | JArr l => forEach_from f l 0 s
  | JUndef | JNull =>
      Throw (TypeError "Cannot read properties of null or undefined (reading 'forEach')")
  | _ => Throw (TypeError "forEach is not a function")
  end.

(** ** The Topic records *)

Record Sources : Type := {
  twitter : JsVal;
  tiktok : JsVal;
  threads : JsVal;
  reddit : JsVal
}.

Record Topic : Type := {
  id : nat;
  title : JsVal;
  description : JsVal;
  relevanceScore : JsVal;
  sources : Sources
}.

(** ** [extractTopicsWithSources] *)

Section Extractor.

Variable StringToNumber : string → number.
Variable NumberToString : number → string.

Abbreviation gt := (gt StringToNumber NumberToString).
Abbreviation div := (div StringToNumber NumberToString).
Abbreviation Math_max := (Math_max StringToNumber NumberToString).
Abbreviation Math_min := (Math_min StringToNumber NumberToString).

(** [data.ranked_topics || data.ai_topic_suggestions?.topics || []] *)
Definition aiTopics (data : JsVal) : Result JsVal :=
  get data "ranked_topics"
  ||| get_chain data "ai_topic_suggestions" "topics"
  ||| Ok (JArr []).

Definition twitterPosts (data : JsVal) : Result JsVal :=
  get_chain data "twitter_results" "sample_posts"
  ||| get_chain data "twitter_results" "trending_topics"
  ||| Ok (JArr []).

Definition tiktokPosts (data : JsVal) : Result JsVal :=
  get_chain data "tiktok_results" "sample_posts"
  ||| get_chain data "tiktok_results" "sample_captions"
  ||| Ok (JArr []).

Definition threadsPosts (data : JsVal) : Result JsVal :=
  get_chain data "threads_results" "sample_posts"
  ||| Ok (JArr []).

Definition redditPosts (data : JsVal) : Result JsVal :=
  get_chain data "reddit_results" "sample_posts"
  ||| get_chain data "reddit_results" "sample_titles"
  ||| Ok (JArr []).

(** Lines 72 to 81: the scale is guessed from the size of the value,
    then the result is clamped. *)
Definition normalize (relevanceScore : JsVal) : Result JsVal :=
  above10 ← gt relevanceScore (of_Z 10);
  relevanceScore ←
    (if above10 : bool then div relevanceScore (of_Z 100)
     else
       above1 ← gt relevanceScore (of_Z 1);
       if above1 : bool then div relevanceScore (of_Z 10)
       else Ok relevanceScore);
  clamped ← Math_max relevanceScore (lit 0);
  Math_min clamped (lit 1).

(** The body of the [forEach] callback, [topics.push] being an append. *)
Definition push_topic (twitterPosts tiktokPosts threadsPosts redditPosts : JsVal)
    (topic : JsVal) (index : nat) (topics : list Topic) : Result (list Topic) :=
  relevanceScore ← get topic "relevance_score" ||| get topic "score" ||| Ok (lit 8);
  relevanceScore ← normalize relevanceScore;
  title ← get topic "title" ||| get topic "topic"
          ||| Ok (JStr ("Topic " +:+ pretty (index + 1)));
  description ← get topic "description" ||| get topic "reasoning" ||| Ok (JStr "");
  twitter ← slice twitterPosts (index * 2) (index * 2 + 2);
  tiktok ← slice tiktokPosts index (index + 1);
  threads ← slice threadsPosts index (index + 1);
  reddit ← slice redditPosts index (index + 1);
  Ok (topics ++ [ {| id := index;
                     title := title;
                     description := description;
                     relevanceScore := relevanceScore;
                     sources := {| twitter := twitter;
                                   tiktok := tiktok;
                                   threads := threads;
                                   reddit := reddit |} |} ]).

Definition extractTopicsWithSources (data : JsVal) : Result (list Topic) :=
  let topics := [] in
  aiTopics ← aiTopics data;
  twitterPosts ← twitterPosts data;
  tiktokPosts ← tiktokPosts data;
  threadsPosts ← threadsPosts data;
  redditPosts ← redditPosts data;
  first8 ← slice aiTopics 0 8;
  forEach first8 (push_topic twitterPosts tiktokPosts threadsPosts redditPosts) topics.

End Extractor.

(** ** The [HomePage] component around the extractor

    The component keeps [isLoading], [topics] and [error] in React state
    and the serialized topic list under the key ['podcastTopics'] of
    [localStorage].  What happens to them is driven by four kinds of
    events: the page is loaded and the component mounts, the user starts a
    research call ([generateIdeas]), the call answers with a parsed JSON
    body, or the promise is rejected (the network failed, or the body was
    not JSON).

    [setItemCalls] is a ghost field: the history of the calls
    [localStorage.setItem('podcastTopics', _)], newest first. *)

Record World : Type := {
  isLoading : bool;
  topics : list Topic;
  error : option string;
  podcastTopics : option string;
  setItemCalls : list string
}.

Inductive Event : Type :=
| Mount
| GenerateIdeas
| FetchResolved (data : JsVal)
| FetchRejected (err : JsError).

(** What [fetch] resolves to: the status of the answer and its body,
    [None] when the body is not JSON text. *)
Record Response : Type := {
  status : nat;
  json : option JsVal
}.

(** [res.ok] *)
Definition ok (res : Response) : bool :=
  ((200 <=? status res) && (status res <=? 299))%nat.

(** Line 39, [.then(res => res.json())]: the status is not looked at, and
    the promise of [res.json()] is rejected when the body is not JSON. *)
Definition onResponse (res : Response) : Event :=
  match json res with
  | Some data => FetchResolved data
  | None => FetchRejected (SyntaxError "Unexpected token in JSON")
  end.

(** A browser in which the page has never been used. *)
Definition fresh : World :=
  {| isLoading := false;
     topics := [];
     error := None;
     podcastTopics := None;
     setItemCalls := [] |}.

Section HomePage.

Variable StringToNumber : string → number.
Variable NumberToString : number → string.

(** [JSON.stringify] and [JSON.parse] on topic lists; the entry is only
    written by this component, so what is read back is a topic list. *)
Variable JSON_stringify : list Topic → string.
Variable JSON_parse : string → list Topic.

(** The effect of lines 18 to 22, which React runs after the first render
    and after every render in which [topics] was replaced. *)
Definition saveTopics (w : World) : World :=
  if (0 <? length (topics w))%nat
  then {| isLoading := isLoading w;
          topics := topics w;
          error := error w;
          podcastTopics := Some (JSON_stringify (topics w));
          setItemCalls := JSON_stringify (topics w) :: setItemCalls w |}
  else w.

(** Loading the page: the state initializers of lines 7 to 15, the first
    render, then the effect. *)
Definition mount (w : World) : World :=
  let saved := podcastTopics w in
  saveTopics {| isLoading := false;
                topics := match saved with
                          | Some s => if ToBoolean (JStr s) then JSON_parse s else []
                          | None => []
                          end;
                error := None;
                podcastTopics := podcastTopics w;
                setItemCalls := setItemCalls w |}.

(** The synchronous part of [generateIdeas]. *)
Definition generateIdeas (w : World) : World :=
  saveTopics {| isLoading := true;
                topics := [];
                error := None;
                podcastTopics := podcastTopics w;
                setItemCalls := setItemCalls w |}.

(** The [.catch] handler. *)
Definition onError (err : JsError) (w : World) : World :=
  {| isLoading := false;
     topics := topics w;
     error := Some (if ToBoolean (JStr (message err)) then message err
                    else "Failed to generate ideas");
     podcastTopics := podcastTopics w;
     setItemCalls := setItemCalls w |}.

(** The second [.then] handler; an exception of the extractor lands in
    the [.catch] handler. *)
Definition onData (data : JsVal) (w : World) : World :=
  match extractTopicsWithSources StringToNumber NumberToString data with
  | Ok extractedTopics =>
      saveTopics {| isLoading := false;
                    topics := extractedTopics;
                    error := error w;
                    podcastTopics := podcastTopics w;
                    setItemCalls := setItemCalls w |}
  | Throw err => onError err w
  end.

Definition step (w : World) (e : Event) : World :=
  match e with
  | Mount => mount w
  | GenerateIdeas => generateIdeas w
  | FetchResolved data => onData data w
  | FetchRejected err => onError err w
  end.

Definition run (w : World) (es : list Event) : World := foldl step w es.

(** A research call among the events [es] has answered a body from which
    the extractor returned a non-empty list. *)
Definition extracted_in (es : list Event) : Prop :=
  ∃ data extractedTopics,
    FetchResolved data ∈ es ∧
    extractTopicsWithSources StringToNumber NumberToString data = Ok extractedTopics ∧
    extractedTopics ≠ [].

End HomePage.

(** ** Reading the fields of an entry *)

(** The value of property [k] of an object, [undefined] when absent. *)
Definition field (m : gmap string JsVal) (k : string) : JsVal :=
  default JUndef (m !! k).

(** What a chain [v1 || v2 || ... || d] evaluates to. *)
Fixpoint first_truthy (vs : list JsVal) (d : JsVal) : JsVal :=
  match vs with
  | [] => d
  | v :: vs' => if ToBoolean v then v else first_truthy vs' d
  end.

(** The properties of a topic entry (none for a value that is no object). *)
Definition entry_fields (e : JsVal) : gmap string JsVal :=
  match e with
  | JObj m => m
  | _ => ∅
  end.

(** The raw relevance of an entry:
    [topic.relevance_score || topic.score || 8]. *)
Definition raw_relevance (m : gmap string JsVal) : JsVal :=
  first_truthy [field m "relevance_score"; field m "score"] (lit 8).

(** The values that can be converted to a string or to a number: all but
    the objects with a [toString] key of their own, and the arrays that
    hold such an object. *)
Fixpoint convertible (v : JsVal) : bool :=
  match v with
  | JArr l => forallb convertible l
  | JObj m => negb (own_toString m)
  | _ => true
  end.

(** ** The shape of a research result

    §3 of the specification: an object in which the list of AI topics and
    the per-platform lists of posts sit under optional keys, every key
    being possibly absent, [null] or empty.  A topic entry is any value
    that is not [null] (a string or a number passes as an entry without
    fields); its fields are not constrained, except that its raw relevance
    must be convertible to a number. *)

Definition optional (p : JsVal → bool) (o : option JsVal) : bool :=
  match o with
  | None => true
  | Some v => negb (ToBoolean v) || p v
  end.

Definition is_topic_entry (v : JsVal) : bool :=
  negb (nullish v) && convertible (raw_relevance (entry_fields v)).

Definition is_topic_list (v : JsVal) : bool :=
  match v with
  | JArr l => forallb is_topic_entry l
  | _ => false
  end.

Definition is_post_list (v : JsVal) : bool :=
  match v with
  | JArr _ => true
  | _ => false
  end.

Definition is_suggestions (v : JsVal) : bool :=
  match v with
  | JObj m => optional is_topic_list (m !! "topics")
  | _ => false
  end.

Definition is_platform (keys : list string) (v : JsVal) : bool :=
  match v with
  | JObj m => forallb (λ k, optional is_post_list (m !! k)) keys
  | _ => false
  end.

Definition RawResearchResult (data : JsVal) : bool :=
  match data with
  | JObj m =>
      optional is_topic_list (m !! "ranked_topics")
      && optional is_suggestions (m !! "ai_topic_suggestions")
      && optional (is_platform ["sample_posts"; "trending_topics"]) (m !! "twitter_results")
      && optional (is_platform ["sample_posts"; "sample_captions"]) (m !! "tiktok_results")
      && optional (is_platform ["sample_posts"]) (m !! "threads_results")
      && optional (is_platform ["sample_posts"; "sample_titles"]) (m !! "reddit_results")
  | _ => false
  end.

(** ** Closed forms used to state what the extractor returns *)

(** A result that is a value accepted by [p], resp. a falsy value or a
    value accepted by [p]. *)
Definition selects (p : JsVal → bool) (r : Result JsVal) : Prop :=
  ∃ v, r = Ok v ∧ p v = true.

Definition maybe (p : JsVal → bool) (r : Result JsVal) : Prop :=
  ∃ v, r = Ok v ∧ (ToBoolean v = false ∨ p v = true).

(** The post indices read by [posts.slice(index * 2, index * 2 + 2)] and
    by [posts.slice(index, index + 1)] on a list of [len] posts. *)
Definition twitter_window (len index : nat) : list nat :=
  slice_indices len (index * 2) (index * 2 + 2).

Definition single_window (len index : nat) : list nat :=
  slice_indices len index (index + 1).

(** The three single-post sources of a topic are what the window of
    position [n] reads from the candidates of each platform. *)
Definition reads_single_windows (tk th rd : list JsVal) (n : nat) (t : Topic) : Prop :=
  tiktok (sources t) = JArr (omap (λ k, tk !! k) (single_window (length tk) n)) ∧
  threads (sources t) = JArr (omap (λ k, th !! k) (single_window (length th) n)) ∧
  reddit (sources t) = JArr (omap (λ k, rd !! k) (single_window (length rd) n)).

(** The wording of the specification for steps 4 and 6 of the algorithm,
    kept apart from the code: the value of the first key of [keys] that
    is present in the entry, and [d] when none is. *)
Fixpoint first_present (m : gmap string JsVal) (keys : list string) (d : JsVal) : JsVal :=
  match keys with
  | [] => d
  | k :: keys' =>
      match m !! k with
      | Some v => v
      | None => first_present m keys' d
      end
  end.

Section ClosedForm.

Variable StringToNumber : string → number.
Variable NumberToString : number → string.

(** What lines 72 to 81 leave in [relevanceScore] ([undefined] stands
    for a raised exception, in which case nothing is pushed). *)
Definition normalized (raw : JsVal) : JsVal :=
  match normalize StringToNumber NumberToString raw with
  | Ok v => v
  | Throw _ => JUndef
  end.

(** The record pushed for the entry [m] at position [index]. *)
Definition topic_of (tw tk th rd : list JsVal) (index : nat)
    (m : gmap string JsVal) : Topic :=
  {| id := index;
     title := first_truthy [field m "title"; field m "topic"]
                (JStr ("Topic " +:+ pretty (index + 1)));
     description := first_truthy [field m "description"; field m "reasoning"] (JStr "");
     relevanceScore := normalized (raw_relevance m);
     sources := {| twitter := JArr (Array_slice tw (index * 2) (index * 2 + 2));
                   tiktok := JArr (Array_slice tk index (index + 1));
                   threads := JArr (Array_slice th index (index + 1));
                   reddit := JArr (Array_slice rd index (index + 1)) |} |}.

(** The list returned for the entries [l] and the four lists of posts. *)
Definition topics_of (tw tk th rd l : list JsVal) : list Topic :=
  imap (λ index e, topic_of tw tk th rd index (entry_fields e)) (take 8 l).

End ClosedForm.

(** ** Sample research results *)

Definition sample_entries : list JsVal :=
  [ JObj {[ "title" := JStr "Burnout"; "relevance_score" := lit 75 ]};
    JObj {[ "topic" := JStr "Side hustles"; "score" := lit 8;
            "reasoning" := JStr "Trending on every platform" ]};
    JObj ∅ ].

Definition sample_tweets : list JsVal :=
  [JStr "p0"; JStr "p1"; JStr "p2"; JStr "p3"; JStr "p4"; JStr "p5"].

Definition sample_captions : list JsVal := [JStr "q0"; JStr "q1"; JStr "q2"].

Definition sample_titles : list JsVal := [JStr "r0"; JStr "r1"; JStr "r2"].

Definition sample_result : JsVal :=
  JObj {[ "ranked_topics" := JArr sample_entries;
          "twitter_results" := JObj {[ "sample_posts" := JArr sample_tweets ]};
          "tiktok_results" := JObj {[ "sample_captions" := JArr sample_captions ]};
          "threads_results" := JNull;
          "reddit_results" := JObj {[ "sample_posts" := JNull;
                                      "sample_titles" := JArr sample_titles ]} ]}.

(** Entries whose [relevance_score] is present with the value 0. *)
Definition zero_with_score : gmap string JsVal :=
  {[ "relevance_score" := lit 0; "score" := lit 5 ]}.

Definition zero_alone : gmap string JsVal := {[ "relevance_score" := lit 0 ]}.

Definition zero_score_result : JsVal :=
  JObj {[ "ranked_topics" := JArr [JObj zero_with_score; JObj zero_alone] ]}.

(** Entries whose [title] is present and empty. *)
Definition empty_title_with_topic : gmap string JsVal :=
  {[ "title" := JStr ""; "topic" := JStr "AI" ]}.

Definition empty_title_alone : gmap string JsVal := {[ "title" := JStr "" ]}.

Definition empty_title_result : JsVal :=
  JObj {[ "ranked_topics" := JArr [JObj empty_title_with_topic; JObj empty_title_alone] ]}.

(** The raw relevance and the title of an entry as steps 6 and 4 of the
    specification word them. *)
Definition relevance_as_specified (m : gmap string JsVal) : JsVal :=
  first_present m ["relevance_score"; "score"] (lit 8).

(** An entry whose relevance is an object with a [toString] key. *)
Definition unconvertible_result : JsVal :=
  JObj {[ "ranked_topics" :=
            JArr [JObj {[ "relevance_score" := JObj {[ "toString" := lit 1 ]} ]}] ]}.

Definition title_as_specified (index : nat) (m : gmap string JsVal) : JsVal :=
  first_present m ["title"; "topic"] (JStr ("Topic " +:+ pretty (index + 1))).

(** The posts held by a source slot of a topic. *)
Definition posts_of (v : JsVal) : list JsVal :=
  match v with
  | JArr l => l
  | _ => []
  end.

(** What every pushed record looks like, whatever the entry and the
    candidates were. *)
Definition well_formed_at (index : nat) (t : Topic) : Prop :=
  id t = index ∧
  ToBoolean (title t) = true ∧
  (ToBoolean (description t) = true ∨ description t = JStr "") ∧
  (relevanceScore t = JNum NaN ∨
   ∃ r : number, relevanceScore t = JNum r ∧
                 at_most (of_Z 0) r = true ∧ at_most r (of_Z 1) = true) ∧
  length (posts_of (twitter (sources t))) ≤ 2 ∧
  length (posts_of (tiktok (sources t))) ≤ 1 ∧
  length (posts_of (threads (sources t))) ≤ 1 ∧
  length (posts_of (reddit (sources t))) ≤ 1.

(** ** What [HomePage] renders (lines 136, 161, 184 and 197) *)

Definition showsHero (w : World) : bool :=
  (length (topics w) =? 0)%nat && negb (isLoading w).

Definition showsLoading (w : World) : bool := isLoading w.

Definition showsError (w : World) : bool :=
  match error w with
  | Some msg => ToBoolean (JStr msg)
  | None => false
  end.

Definition showsTopics (w : World) : bool := (0 <? length (topics w))%nat.

(** ** The episode draft of [HomePage] (lines 13 to 15 and 100 to 131)

    [episodeData] is [null], the parsed answer of [POST /api/episode], or
    the object [{ error: err.message }] built by the [.catch] handler. *)

Record Episode : Type := {
  selectedTopic : option Topic;
  episodeData : JsVal;
  episodeLoading : bool
}.

Inductive EpisodeEvent : Type :=
| DraftEpisode (topic : Topic)
| EpisodeResolved (data : JsVal)
| EpisodeRejected (err : JsError)
| CloseEpisodeModal.

Definition handleDraftEpisode (topic : Topic) (s : Episode) : Episode :=
  {| selectedTopic := Some topic;
     episodeLoading := true;
     episodeData := JNull |}.

Definition onEpisodeData (data : JsVal) (s : Episode) : Episode :=
  {| selectedTopic := selectedTopic s;
     episodeData := data;
     episodeLoading := false |}.

Definition onEpisodeError (err : JsError) (s : Episode) : Episode :=
  {| selectedTopic := selectedTopic s;
     episodeLoading := false;
     episodeData := JObj {[ "error" := JStr (message err) ]} |}.

Definition closeEpisodeModal (s : Episode) : Episode :=
  {| selectedTopic := None;
     episodeData := JNull;
     episodeLoading := episodeLoading s |}.

Definition episode_step (s : Episode) (e : EpisodeEvent) : Episode :=
  match e with
  | DraftEpisode topic => handleDraftEpisode topic s
  | EpisodeResolved data => onEpisodeData data s
  | EpisodeRejected err => onEpisodeError err s
  | CloseEpisodeModal => closeEpisodeModal s
  end.

Definition episode_run (s : Episode) (es : list EpisodeEvent) : Episode :=
  foldl episode_step s es.

(** [HomePage] renders the modal when [selectedTopic] is set (line 229). *)
Definition showsEpisodeModal (s : Episode) : bool :=
  match selectedTopic s with
  | Some _ => true
  | None => false
  end.

(** ** [EpisodeModal] *)

(** [s.split(sep)] for a separator of one character: the pieces between
    the occurrences of [sep], of which there is at least one. *)
Fixpoint String_split (sep : Ascii.ascii) (s : string) : list string :=
  match s with
  | EmptyString => [EmptyString]
  | String c s' =>
      if Ascii.eqb c sep then EmptyString :: String_split sep s'
      else match String_split sep s' with
           | piece :: pieces => String c piece :: pieces
           | [] => [String c EmptyString]
           end
  end.

(** The method call [v.split(sep)]: only strings have the method. *)
Definition split (v : JsVal) (sep : Ascii.ascii) : Result (list string) :=
  match v with
  | JStr s => Ok (String_split sep s)
  | JUndef | JNull =>
      Throw (TypeError "Cannot read properties of null or undefined (reading 'split')")
  | _ => Throw (TypeError "split is not a function")
  end.

(** The two separators of line 7. *)
Definition slash : Ascii.ascii := Ascii.ascii_of_nat 47.
Definition backslash : Ascii.ascii := Ascii.ascii_of_nat 92.

(** [episodeData?.outline || {}] *)
Definition outline (episodeData : JsVal) : Result JsVal :=
  get_opt episodeData "outline" ||| Ok (JObj ∅).

(** [outline.title || episodeData?.topic] *)
Definition hasContent (episodeData : JsVal) : Result JsVal :=
  outline ← outline episodeData;
  get outline "title" ||| get_opt episodeData "topic".

(** [episodeData?.error], the condition of the error panel (line 46). *)
Definition episodeError (episodeData : JsVal) : Result JsVal :=
  get_opt episodeData "error".

Section EpisodeModal.

(** What the template of line 8 puts before [/output/]: the text
    [http://localhost:8000], or the value of [VITE_API_URL]. *)
Variable API_URL : string.

(** [pop()] answers the last piece, [undefined] on an empty array. *)
Definition getPdfUrl (episodeData : JsVal) : Result JsVal :=
  pdf_report ← get_opt episodeData "pdf_report";
  if negb (ToBoolean pdf_report) then Ok JNull
  else
    pieces ← split pdf_report slash;
    match last pieces with
    | None =>
        Throw (TypeError "Cannot read properties of undefined (reading 'split')")
    | Some piece =>
        let filename := default "undefined" (last (String_split backslash piece)) in
        Ok (JStr (API_URL +:+ "/output/" +:+ filename))
    end.

End EpisodeModal.

(** ** [TopicCard] *)

(** [v.length] of a value that is not [null]. *)
Definition js_length (v : JsVal) : JsVal :=
  match v with
  | JArr l => lit (Z.of_nat (length l))
  | JStr s => lit (Z.of_nat (String.length s))
  | JObj m => field m "length"
  | _ => JUndef
  end.

(** [a || b] on two values. *)
Definition js_or (a b : JsVal) : JsVal := if ToBoolean a then a else b.

(** [typeof v] *)
Definition typeof (v : JsVal) : string :=
  match v with
  | JUndef => "undefined"
  | JBool _ => "boolean"
  | JNum _ => "number"
  | JStr _ => "string"
  | JNull | JArr _ | JObj _ => "object"
  end.

(** [v === 0] *)
Definition is_zero (v : JsVal) : bool :=
  match v with
  | JNum (S754_zero _) => true
  | _ => false
  end.

(** What is shown for one post (lines 234 to 236). *)
Record PostView : Type := {
  postText : JsVal;
  postUrl : JsVal;
  postAuthor : JsVal
}.

(** [l.map(f)] for a callback that may raise. *)
Fixpoint map_Result {A B : Type} (f : A → Result B) (l : list A) : Result (list B) :=
  match l with
  | [] => Ok []
  | x :: l' => y ← f x; ys ← map_Result f l'; Ok (y :: ys)
  end.

(** [l.some(f)] for a callback that may raise. *)
Fixpoint some_Result (f : JsVal → Result bool) (l : list JsVal) : Result bool :=
  match l with
  | [] => Ok false
  | x :: l' => b ← f x; if b : bool then Ok true else some_Result f l'
  end.

(** What React does with a value written as a child, as in
    [<p>{postText}</p>]: a string or a number is text, [null],
    [undefined] and the booleans are nothing, the elements of an array are
    children in turn, and an object is refused with an exception. *)
Fixpoint React_child (v : JsVal) : Result () :=
  match v with
  | JObj _ => Throw (Error "Objects are not valid as a React child")
  | JArr l =>
      (fix children (l : list JsVal) : Result () :=
         match l with
         | [] => Ok ()
         | x :: l' => _ ← React_child x; children l'
         end) l
  | _ => Ok ()
  end.

(** The values accepted as children. *)
Fixpoint valid_child (v : JsVal) : bool :=
  match v with
  | JObj _ => false
  | JArr l => forallb valid_child l
  | _ => true
  end.

(** [Object.values(topic.sources)], in the order of the keys. *)
Definition source_slots (topic : Topic) : list JsVal :=
  [twitter (sources topic); tiktok (sources topic);
   threads (sources topic); reddit (sources topic)].

Section TopicCard.

Variable StringToNumber : string → number.
Variable NumberToString : number → string.

(** An attribute such as [href={postUrl}] is set to the string of its
    value. *)
Definition React_attribute (v : JsVal) : Result () :=
  _ ← ToString NumberToString v; Ok ().

(** One post of the expanded section: the three constants of lines 234
    to 236, then the element of lines 238 to 263, in which [postText] and a
    truthy [postAuthor] are children and a truthy [postUrl] is the [href]
    of the link.  React looks at the element after the callbacks have run
    for all posts; whether the section is drawn does not depend on that
    order, only which of several exceptions is seen first. *)
Definition renderPost (post : JsVal) : Result PostView :=
  postText ← (if String.eqb (typeof post) "string" then Ok post
              else get post "text" ||| get post "title" ||| Ok (JStr ""));
  postUrl ← (if String.eqb (typeof post) "object" then get post "url" else Ok JNull);
  postAuthor ← (if String.eqb (typeof post) "object" then get post "author"
                else Ok JNull);
  _ ← React_child postText;
  _ ← (if ToBoolean postAuthor then React_child postAuthor else Ok ());
  _ ← (if ToBoolean postUrl then React_attribute postUrl else Ok ());
  Ok {| postText := postText; postUrl := postUrl; postAuthor := postAuthor |}.

(** One platform of the expanded section (lines 221 to 267): nothing for
    a missing or empty list, else one view per post. *)
Definition renderPlatform (posts : JsVal) : Result (option (list PostView)) :=
  if negb (ToBoolean posts) || is_zero (js_length posts) then Ok None
  else match posts with
       | JArr l => views ← map_Result renderPost l; Ok (Some views)
       | _ => Throw (TypeError "posts.map is not a function")
       end.

Definition renderSources (topic : Topic) : Result (list (option (list PostView))) :=
  map_Result renderPlatform (source_slots topic).

(** Line 160: [arr && arr.length > 0] inside [some]. *)
Definition has_posts (arr : JsVal) : Result bool :=
  if ToBoolean arr then gt StringToNumber NumberToString (js_length arr) (of_Z 0)
  else Ok false.

Definition hasSources (topic : Topic) : Result bool :=
  some_Result has_posts (source_slots topic).

(** Line 163: the percentage of the badge,
    [Math.min(Math.round((topic.relevanceScore || 0.8) * 100), 100)]. *)
Definition badge (topic : Topic) : Result JsVal :=
  product ← times StringToNumber NumberToString
              (js_or (relevanceScore topic) (JNum (decimal 8 1))) (of_Z 100);
  rounded ← Math_round StringToNumber NumberToString product;
  Math_min StringToNumber NumberToString rounded (lit 100).

End TopicCard.

(** The posts that one platform of the expanded section can show: not
    [null], with a text and an author that are no objects, and a link that
    can be written as a string. *)
Definition renderable (post : JsVal) : bool :=
  match post with
  | JUndef | JNull => false
  | JObj m =>
      valid_child (first_truthy [field m "text"; field m "title"] (JStr ""))
      && valid_child (field m "author")
      && convertible (field m "url")
  | _ => true
  end.

(** ** The login guard of [App] (lines 11 to 19 and 116 to 118)

    [esosa_authenticated] is the entry of that name in [localStorage]. *)

Record AppState : Type := {
  isAuthenticated : bool;
  esosa_authenticated : option string
}.

Inductive AppEvent : Type :=
| AppMount
| Login.

(** The effect of lines 15 to 19. *)
Definition saveAuthenticated (a : AppState) : AppState :=
  if isAuthenticated a
  then {| isAuthenticated := true; esosa_authenticated := Some "true" |}
  else a.

(** Loading the page: the initializer of lines 11 to 13, then the effect. *)
Definition mountApp (a : AppState) : AppState :=
  saveAuthenticated
    {| isAuthenticated :=
         match esosa_authenticated a with
         | Some s => String.eqb s "true"
         | None => false
         end;
       esosa_authenticated := esosa_authenticated a |}.

(** [onLogin], that is [setIsAuthenticated(true)], and the effect. *)
Definition onLogin (a : AppState) : AppState :=
  saveAuthenticated
    {| isAuthenticated := true; esosa_authenticated := esosa_authenticated a |}.

Definition app_step (a : AppState) (e : AppEvent) : AppState :=
  match e with
  | AppMount => mountApp a
  | Login => onLogin a
  end.

Definition app_run (a : AppState) (es : list AppEvent) : AppState :=
  foldl app_step a es.

(** Line 116: the login modal covers the page. *)
Definition showsLoginModal (a : AppState) : bool := negb (isAuthenticated a).

(** ** [LoginModal]: the hash of the secret word (lines 12 to 17, 26)

    The digest is a [Uint8Array]; each byte is written in base 16 and
    padded to two characters, and the pieces are joined. *)

Definition hex_digit (n : nat) : Ascii.ascii :=
  nth n (String.list_ascii_of_string "0123456789abcdef") (Ascii.ascii_of_nat 48).

(** [b.toString(16)] for a byte: no leading zero. *)
Definition toString16 (b : Byte.byte) : string :=
  let n := Byte.to_nat b in
  if (n <? 16)%nat then String (hex_digit n) EmptyString
  else String (hex_digit (n / 16)) (String (hex_digit (n mod 16)) EmptyString).

(** [s.padStart(2, '0')] *)
Definition padStart2 (s : string) : string :=
  match String.length s with
  | 0 => "00" +:+ s
  | 1 => "0" +:+ s
  | _ => s
  end.

(** [hashArray.map((b) => b.toString(16).padStart(2, '0')).join('')] *)
Definition hex (hashArray : list Byte.byte) : string :=
  String.concat EmptyString ((λ b, padStart2 (toString16 b)) <$> hashArray).

Section LoginModal.

(** [String.prototype.toLowerCase], [TextEncoder.encode] and the SHA-256
    of [crypto.subtle], and the value of [VITE_ACCESS_HASH]. *)
Variable toLowerCase : string → string.
Variable encode : string → list Byte.byte.
Variable SHA256 : list Byte.byte → list Byte.byte.
Variable TARGET_HASH : JsVal.

Definition hashString (s : string) : string :=
  hex (SHA256 (encode (toLowerCase s))).

(** [inputHash === TARGET_HASH], the condition under which [handleSubmit]
    calls [onLogin]. *)
Definition accepts (password : string) : bool :=
  match TARGET_HASH with
  | JStr h => String.eqb (hashString password) h
  | _ => false
  end.

End LoginModal.

(** Reading hexadecimal text back, to state what [hex] keeps. *)
Definition unhex_digit (c : Ascii.ascii) : option nat :=
  let n := Ascii.nat_of_ascii c in
  if ((48 <=? n) && (n <=? 57))%nat then Some (n - 48)
  else if ((97 <=? n) && (n <=? 102))%nat then Some (n - 87)
  else None.

Fixpoint unhex (s : string) : option (list Byte.byte) :=
  match s with
  | EmptyString => Some []
  | String hi (String lo s') =>
      match unhex_digit hi, unhex_digit lo, unhex s' with
      | Some h, Some l, Some bs =>
          match Byte.of_nat (16 * h + l) with
          | Some b => Some (b :: bs)
          | None => None
          end
      | _, _, _ => None
      end
  | String _ EmptyString => None
  end.

(** ** Notions used to state the properties of the other components *)

(** The character [c] occurs in [s]. *)
Fixpoint occurs (c : Ascii.ascii) (s : string) : bool :=
  match s with
  | EmptyString => false
  | String c' s' => Ascii.eqb c' c || occurs c s'
  end.

(** The pieces written one after the other, each followed by [sep]. *)
Fixpoint join_pieces (sep : Ascii.ascii) (pieces : list string) : string :=
  match pieces with
  | [] => EmptyString
  | piece :: pieces' => piece +:+ String sep (join_pieces sep pieces')
  end.

(** [dir] is empty or ends with one of the two separators. *)
Definition ends_with_separator (dir : string) : Prop :=
  ∃ d c, dir = d +:+ String c EmptyString ∧ (c = slash ∨ c = backslash).

(** An answer of [POST /api/episode], successful or not. *)
Definition is_answer (e : EpisodeEvent) : bool :=
  match e with
  | EpisodeResolved _ | EpisodeRejected _ => true
  | DraftEpisode _ | CloseEpisodeModal => false
  end.

(** What an answer leaves in [episodeData]. *)
Definition answer_data (e : EpisodeEvent) : JsVal :=
  match e with
  | EpisodeResolved data => data
  | EpisodeRejected err => JObj {[ "error" := JStr (message err) ]}
  | DraftEpisode _ | CloseEpisodeModal => JNull
  end.

(** The sign of a number that is not [NaN]. *)
Definition sign_of (x : number) : option bool :=
  match x with
  | S754_zero s | S754_infinity s | S754_finite s _ _ => Some s
  | S754_nan => None
  end.

(** The two steps of the normalization on a number: the guess of the
    scale (lines 72 to 78) and the clamp (line 81). *)
Definition scale (v : number) : number :=
  if less (of_Z 10) v then divide v (of_Z 100)
  else if less (of_Z 1) v then divide v (of_Z 10)
  else v.

Definition clamp (x : number) : number :=
  min_number (max_number x (of_Z 0)) (of_Z 1).

(** A value with a [slice] method: an array or a string. *)
Definition sliceable (v : JsVal) : bool :=
  match v with
  | JArr _ | JStr _ => true
  | _ => false
  end.

(** ** More sample data *)

(** A research result whose third tweet is [null]. *)
Definition null_tweet_result : JsVal :=
  JObj {[ "ranked_topics" := JArr sample_entries;
          "twitter_results" :=
            JObj {[ "sample_posts" := JArr [JStr "p0"; JStr "p1"; JNull; JStr "p3"] ]} ]}.

(** Ten entries, and the same with a [null] in the tenth place. *)
Definition ten_entries : list JsVal := replicate 10 (JObj ∅).

Definition ten_entries_null_last : list JsVal := replicate 9 (JObj ∅) ++ [JNull].

(** A topic as the extractor builds it, with a relevance of 0.285. *)
Definition sample_topic : Topic :=
  {| id := 0;
     title := JStr "Burnout";
     description := JStr "";
     relevanceScore := JNum (decimal 285 3);
     sources := {| twitter := JArr [JStr "p0"; JStr "p1"];
                   tiktok := JArr [];
                   threads := JArr [];
                   reddit := JArr [] |} |}.

(** * Properties *)

(** ** Rounding to binary64

    What the proofs below need to know about the rounding of [SFdiv],
    [SFmul] and [of_Z]: it keeps the sign, it never answers [NaN], and it
    does not round a positive integer down to zero. *)

Section Binary64.

#[local] Open Scope Z_scope.

Lemma shr_1_m (mrs : shr_record) :
  0 ≤ shr_m mrs → shr_m (shr_1 mrs) = shr_m mrs / 2.
Proof.
  destruct mrs as [m r s]. cbn [shr_m]. intros Hm.
  destruct m as [|p|p]; [done| |lia].
  destruct p as [p|p|]; cbn [shr_1 shr_m].
  - rewrite Pos2Z.inj_xI. rewrite Z.add_comm, Z.mul_comm, Z.div_add by lia. done.
  - rewrite Pos2Z.inj_xO. by rewrite Z.mul_comm, Z.div_mul by lia.
  - done.
Qed.

Lemma pow2_xO (q : positive) : 2 ^ Z.pos q~0 = 2 ^ Z.pos q * 2 ^ Z.pos q.
Proof. rewrite <- Z.pow_add_r by lia. f_equal. lia. Qed.

Lemma pow2_xI (q : positive) : 2 ^ Z.pos q~1 = 2 * (2 ^ Z.pos q * 2 ^ Z.pos q).
Proof.
  rewrite <- Z.pow_add_r by lia. rewrite <- Z.pow_succ_r by lia. f_equal. lia.
Qed.

Lemma iter_pos_shr_1 (q : positive) (mrs : shr_record) :
  0 ≤ shr_m mrs → shr_m (SpecFloat.iter_pos shr_1 q mrs) = shr_m mrs / 2 ^ Z.pos q.
Proof.
  assert (∀ q, 0 < 2 ^ Z.pos q) as Hpow by (intros; by apply Z.pow_pos_nonneg).
  revert mrs. induction q as [q IH|q IH|]; intros mrs Hm; cbn [SpecFloat.iter_pos].
  - assert (0 ≤ shr_m (shr_1 mrs)) as H1.
    { rewrite shr_1_m by done. by apply Z.div_pos. }
    assert (0 ≤ shr_m (SpecFloat.iter_pos shr_1 q (shr_1 mrs))) as H2.
    { rewrite IH by done. by apply Z.div_pos. }
    rewrite IH, IH, shr_1_m by done.
    rewrite !Z.div_div by (pose proof (Hpow q); lia).
    by rewrite pow2_xI, Z.mul_assoc.
  - assert (0 ≤ shr_m (SpecFloat.iter_pos shr_1 q mrs)) as H2.
    { rewrite IH by done. by apply Z.div_pos. }
    rewrite IH, IH by done.
    rewrite !Z.div_div by (pose proof (Hpow q); lia).
    by rewrite pow2_xO.
  - by apply shr_1_m.
Qed.

Lemma shr_record_of_loc_m (m : Z) (l : location) : shr_m (shr_record_of_loc m l) = m.
Proof. by destruct l as [|[]]. Qed.

Lemma shr_fexp_nonneg (m e : Z) (l : location) :
  0 ≤ m → 0 ≤ shr_m (fst (shr_fexp prec emax m e l)).
Proof.
  intros Hm. unfold shr_fexp, shr.
  destruct (fexp prec emax (Zdigits2 m + e) - e) as [|q|q]; cbn [fst];
    rewrite ?iter_pos_shr_1, ?shr_record_of_loc_m; rewrite ?shr_record_of_loc_m; try done.
  apply Z.div_pos; [done|]. by apply Z.pow_pos_nonneg.
Qed.

Lemma round_nearest_even_ge (m : Z) (l : location) : m ≤ round_nearest_even m l.
Proof. destruct l as [|[]]; cbn; try lia. destruct (Z.even m); lia. Qed.

(** Rounding a non-negative mantissa keeps the sign and is never NaN. *)
Lemma binary_round_aux_sign (s : bool) (m e : Z) (l : location) :
  0 ≤ m → sign_of (binary_round_aux prec emax s m e l) = Some s.
Proof.
  intros Hm. unfold binary_round_aux.
  pose proof (shr_fexp_nonneg m e l Hm) as H1.
  destruct (shr_fexp prec emax m e l) as [mrs' e'] eqn:E1. cbn [fst] in H1.
  pose proof (round_nearest_even_ge (shr_m mrs') (loc_of_shr_record mrs')) as H2.
  pose proof (shr_fexp_nonneg (round_nearest_even (shr_m mrs') (loc_of_shr_record mrs'))
                e' loc_Exact) as H3.
  destruct (shr_fexp prec emax _ e' loc_Exact) as [mrs'' e''] eqn:E2. cbn [fst] in H3.
  destruct (shr_m mrs'') as [|p|p]; [done| |lia].
  by destruct (e'' <=? emax - prec).
Qed.

Lemma digits2_pos_le (m : positive) : 2 ^ (Z.pos (digits2_pos m) - 1) ≤ Z.pos m.
Proof.
  induction m as [m IH|m IH|]; cbn [digits2_pos]; [| |done];
    rewrite Pos2Z.inj_succ;
    replace (Z.succ (Z.pos (digits2_pos m)) - 1)
      with (Z.succ (Z.pos (digits2_pos m) - 1)) by lia;
    rewrite Z.pow_succ_r by lia;
    set (x := 2 ^ (Z.pos (digits2_pos m) - 1)) in *; lia.
Qed.

Lemma shr_fexp_pos (m : positive) (e : Z) (l : location) :
  emin prec emax ≤ e →
  0 < shr_m (fst (shr_fexp prec emax (Z.pos m) e l)) ∧
  emin prec emax ≤ snd (shr_fexp prec emax (Z.pos m) e l).
Proof.
  intros He. unfold shr_fexp, shr. cbn [Zdigits2].
  destruct (fexp prec emax (Z.pos (digits2_pos m) + e) - e) as [|q|q] eqn:En;
    cbn [fst snd]; rewrite ?shr_record_of_loc_m; try done.
  rewrite iter_pos_shr_1 by (rewrite shr_record_of_loc_m; lia).
  rewrite shr_record_of_loc_m.
  unfold fexp in En. unfold fexp.
  split; [|lia].
  apply Z.div_str_pos. split; [by apply Z.pow_pos_nonneg|].
  etrans; [|apply digits2_pos_le].
  apply Z.pow_le_mono_r; [lia|]. unfold prec in *. lia.
Qed.

(** Rounding a positive mantissa whose exponent is not below [emin] gives
    a number that is neither zero nor NaN. *)
Lemma binary_round_aux_pos (s : bool) (m : positive) (e : Z) (l : location) :
  emin prec emax ≤ e →
  (∃ m' e', binary_round_aux prec emax s (Z.pos m) e l = S754_finite s m' e') ∨
  binary_round_aux prec emax s (Z.pos m) e l = S754_infinity s.
Proof.
  intros He. unfold binary_round_aux.
  destruct (shr_fexp_pos m e l He) as [H1 H1'].
  destruct (shr_fexp prec emax (Z.pos m) e l) as [mrs' e'] eqn:E1. cbn [fst snd] in H1, H1'.
  pose proof (round_nearest_even_ge (shr_m mrs') (loc_of_shr_record mrs')) as H2.
  destruct (round_nearest_even (shr_m mrs') (loc_of_shr_record mrs')) as [|m1|m1] eqn:E;
    [lia| |lia].
  destruct (shr_fexp_pos m1 e' loc_Exact H1') as [H3 _].
  destruct (shr_fexp prec emax (Z.pos m1) e' loc_Exact) as [mrs'' e''] eqn:E2. cbn [fst] in H3.
  destruct (shr_m mrs'') as [|p|p]; [lia| |lia].
  destruct (e'' <=? emax - prec); [left; by eexists _, _ | by right].
Qed.

Lemma of_Z_pos (p : positive) :
  (∃ m e, of_Z (Z.pos p) = S754_finite false m e) ∨ of_Z (Z.pos p) = S754_infinity false.
Proof.
  unfold of_Z, binary_normalize, binary_round, shl_align.
  destruct (fexp prec emax (Z.pos (digits2_pos p) + 0) - 0) as [|d|d] eqn:E;
    apply binary_round_aux_pos; unfold emin, fexp, prec, emax in *; lia.
Qed.

Lemma SFdiv_sign (x y : number) :
  x ≠ S754_nan → (∃ m e, y = S754_finite false m e) →
  sign_of (divide x y) = sign_of x.
Proof.
  intros Hx (my & ey & ->). destruct x as [s|s| |s mx ex]; try done.
  - by destruct s.
  - by destruct s.
  - unfold divide, SFdiv.
    destruct (SFdiv_core_binary prec emax (Z.pos mx) ex (Z.pos my) ey) as [[mz ez] lz] eqn:E.
    rewrite binary_round_aux_sign; [by destruct s|].
    unfold SFdiv_core_binary in E.
    set (m' := match _ - _ - _ with Z0 => _ | Z.pos _ => _ | Z.neg _ => _ end) in E.
    assert (0 ≤ m') as Hm'.
    { unfold m'. destruct (_ - _ - _); [lia | | lia]. apply Z.shiftl_nonneg. lia. }
    pose proof (Z.div_pos m' (Z.pos my) Hm' eq_refl) as Hq.
    unfold Z.div in Hq. destruct (Z.div_eucl m' (Z.pos my)) as [q r].
    injection E as <- _ _. done.
Qed.

Lemma SFmul_sign (x y : number) (sx sy : bool) (mx my : positive) (ex ey : Z) :
  x = S754_finite sx mx ex → y = S754_finite sy my ey →
  sign_of (multiply x y) = Some (xorb sx sy).
Proof. intros -> ->. by apply binary_round_aux_sign. Qed.

Lemma of_Z_sign (z : Z) : 0 ≤ z → sign_of (of_Z z) = Some false.
Proof.
  intros Hz. destruct z as [|p|p]; [done| |lia].
  by destruct (of_Z_pos p) as [(m & e & ->)| ->].
Qed.

End Binary64.

Lemma of_Z_0 : of_Z 0 = S754_zero false.
Proof. reflexivity. Qed.

Lemma of_Z_1 : of_Z 1 = S754_finite false 4503599627370496 (-52).
Proof. reflexivity. Qed.

Lemma SFcompare_finite (m : positive) (e : Z) (y : number) :
  y ≠ NaN → ∃ c, SFcompare (S754_finite false m e) y = Some c.
Proof. destruct y as [[]|[]| |[] m' e']; try done; by eexists. Qed.

Lemma less_zero_of_nat (n : nat) : less (of_Z 0) (of_Z (Z.of_nat n)) = negb (n =? 0).
Proof.
  destruct n as [|n]; [done|]. cbn [Nat.eqb negb].
  change (Z.of_nat (S n)) with (Z.pos (Pos.of_succ_nat n)).
  by destruct (of_Z_pos (Pos.of_succ_nat n)) as [(m & e & ->)| ->].
Qed.

Lemma is_zero_of_nat (n : nat) : is_zero (lit (Z.of_nat n)) = (n =? 0).
Proof.
  destruct n as [|n]; [done|]. cbn [Nat.eqb]. unfold lit.
  change (Z.of_nat (S n)) with (Z.pos (Pos.of_succ_nat n)).
  by destruct (of_Z_pos (Pos.of_succ_nat n)) as [(m & e & ->)| ->].
Qed.

(** [x <= y] excludes [y < x]. *)
Lemma SFcompare_antisym (x y : number) :
  SFcompare y x = CompOpp <$> SFcompare x y.
Proof.
  destruct x as [sx|sx| |sx mx ex], y as [sy|sy| |sy my ey];
    try destruct sx; try destruct sy; try done; cbn;
    rewrite (Z.compare_antisym ex ey); destruct (ex ?= ey)%Z; cbn; try done;
    rewrite (Pos.compare_cont_antisym mx my Eq); cbn [CompOpp];
    by rewrite ?CompOpp_involutive.
Qed.

Lemma at_most_not_less (x y : number) : at_most x y = true → less y x = false.
Proof.
  unfold at_most, less, SFleb, SFltb. rewrite (SFcompare_antisym x y).
  by destruct (SFcompare x y) as [[]|].
Qed.

Lemma at_most_1_not_above_10 (v : number) :
  at_most v (of_Z 1) = true → less (of_Z 10) v = false.
Proof.
  destruct v as [[]|[]| |[] m e]; [done ..|].
  unfold at_most, less, SFleb, SFltb.
  change (of_Z 1) with (S754_finite false 4503599627370496 (-52)).
  change (of_Z 10) with (S754_finite false 5629499534213120 (-49)).
  cbn [SFcompare].
  destruct (Z.compare_spec e (-52)); destruct (Z.compare_spec (-49) e);
    try done; lia.
Qed.

(** The clamp of line 81 stays within [0,1], and only [NaN] gives [NaN]. *)
Lemma clamp_spec (x : number) :
  match x with
  | S754_nan => clamp x = NaN
  | _ => at_most (of_Z 0) (clamp x) = true ∧ at_most (clamp x) (of_Z 1) = true
  end.
Proof.
  destruct x as [s|s| |s m e]; [by destruct s | by destruct s | done |].
  destruct s; [by vm_compute|].
  unfold clamp, max_number. rewrite of_Z_0. cbn [SFcompare].
  unfold min_number, at_most, SFleb.
  destruct (SFcompare_finite m e (of_Z 1)) as [c Hc]; [done|]. rewrite Hc.
  destruct c; rewrite ?of_Z_1; cbn [is_negative_zero]; rewrite <- ?of_Z_1, ?Hc;
    by rewrite ?of_Z_0.
Qed.

Lemma clamp_cases (x : number) :
  clamp x = NaN ∨
  (at_most (of_Z 0) (clamp x) = true ∧ at_most (clamp x) (of_Z 1) = true).
Proof. pose proof (clamp_spec x) as H. destruct x; first [by right | by left]. Qed.

Lemma clamp_below (x : number) : less x (of_Z 0) = true → clamp x = of_Z 0.
Proof.
  destruct x as [s|s| |s m e]; try destruct s; intros H;
    try (by vm_compute in H); by vm_compute.
Qed.

Lemma clamp_above (x : number) : less (of_Z 1) x = true → clamp x = of_Z 1.
Proof.
  destruct x as [[]|[]| |[] m e]; [done ..|].
  unfold less, SFltb, clamp, max_number. rewrite of_Z_0. cbn [SFcompare].
  unfold min_number. rewrite (SFcompare_antisym (of_Z 1) (S754_finite false m e)).
  by destruct (SFcompare (of_Z 1) (S754_finite false m e)) as [[]|].
Qed.


Lemma clamp_within (x : number) :
  at_most (of_Z 0) x = true → at_most x (of_Z 1) = true →
  x ≠ S754_zero true → clamp x = x.
Proof.
  destruct x as [[]|[]| |[] m e]; intros H0 H1 Hz;
    [first [done | by destruct Hz | by vm_compute in H0 | by vm_compute in H1
           | by vm_compute] ..|]. unfold clamp, max_number. rewrite of_Z_0. cbn [SFcompare].
  unfold min_number. unfold at_most, SFleb in H1.
  by destruct (SFcompare (S754_finite false m e) (of_Z 1)) as [[]|].
Qed.

(** The scale of lines 72 to 78 turns no number into [NaN]. *)
Lemma scale_sign (v : number) : v ≠ NaN → sign_of (scale v) = sign_of v.
Proof.
  intros Hv. unfold scale.
  destruct (less (of_Z 10) v); [apply SFdiv_sign; [done | by eexists _, _]|].
  destruct (less (of_Z 1) v); [apply SFdiv_sign; [done | by eexists _, _]|done].
Qed.

Lemma clamp_scale_bounds (v : number) :
  v ≠ NaN →
  at_most (of_Z 0) (clamp (scale v)) = true ∧ at_most (clamp (scale v)) (of_Z 1) = true.
Proof.
  intros Hv. pose proof (scale_sign v Hv) as Hs. pose proof (clamp_spec (scale v)) as Hc.
  destruct (scale v); try done. by destruct v.
Qed.

(** ** Slices *)

Lemma omap_lookup_seq (l : list JsVal) (k n : nat) :
  k + n ≤ length l →
  omap (λ i, l !! i) (seq k n) = take n (drop k l).
Proof.
  revert k. induction n as [|n IH]; intros k Hk; [by rewrite take_0|].
  destruct (lookup_lt_is_Some_2 l k) as [x Hx]; [lia|].
  rewrite (drop_S _ _ _ Hx). cbn. rewrite Hx. cbn.
  f_equal. apply IH. lia.
Qed.

Lemma Array_slice_take_drop (l : list JsVal) (start end_ : nat) :
  Array_slice l start end_ = take (end_ - start) (drop start l).
Proof.
  unfold Array_slice, slice_indices.
  destruct (decide (start < length l)) as [Hlt|Hge].
  - rewrite (Nat.min_l start) by lia.
    rewrite omap_lookup_seq by lia.
    destruct (decide (end_ ≤ length l)) as [Hle|Hgt].
    + by rewrite (Nat.min_l end_) by lia.
    + rewrite (Nat.min_r end_) by lia.
      rewrite !take_ge; [done | rewrite length_drop; lia ..].
  - rewrite (Nat.min_r start) by lia.
    replace (end_ `min` length l - length l) with 0 by lia.
    rewrite drop_ge by lia. by rewrite take_nil.
Qed.

Lemma slice_array (l : list JsVal) (start end_ : nat) :
  slice (JArr l) start end_ = Ok (JArr (take (end_ - start) (drop start l))).
Proof. cbn. by rewrite Array_slice_take_drop. Qed.

Lemma Array_slice_length (l : list JsVal) (start end_ : nat) :
  length (Array_slice l start end_) ≤ end_ - start.
Proof. rewrite Array_slice_take_drop, length_take. lia. Qed.

Lemma slice_indices_spec (len start end_ k : nat) :
  k ∈ slice_indices len start end_ ↔ start ≤ k < end_ ∧ k < len.
Proof. unfold slice_indices. rewrite elem_of_seq. lia. Qed.

Lemma twitter_window_spec (len index k : nat) :
  k ∈ twitter_window len index ↔ (k = index * 2 ∨ k = index * 2 + 1) ∧ k < len.
Proof. unfold twitter_window. rewrite slice_indices_spec. lia. Qed.

Lemma single_window_spec (len index k : nat) :
  k ∈ single_window len index ↔ k = index ∧ k < len.
Proof. unfold single_window. rewrite slice_indices_spec. lia. Qed.

Lemma twitter_window_disjoint (len i j k : nat) :
  i ≠ j → k ∈ twitter_window len i → k ∉ twitter_window len j.
Proof. rewrite !twitter_window_spec. lia. Qed.

Lemma single_window_disjoint (len i j k : nat) :
  i ≠ j → k ∈ single_window len i → k ∉ single_window len j.
Proof. rewrite !single_window_spec. lia. Qed.

(** ** Property reads and [||] chains *)

Lemma get_object (m : gmap string JsVal) (k : string) :
  get (JObj m) k = Ok (field m k).
Proof. reflexivity. Qed.

Lemma get_opt_falsy (v : JsVal) (k : string) :
  ToBoolean v = false → get_opt v k = Ok JUndef.
Proof. by destruct v. Qed.

Lemma or_else_Ok (v : JsVal) (b : Result JsVal) :
  Ok v ||| b = if ToBoolean v then Ok v else b.
Proof. reflexivity. Qed.

Lemma get_entry (e : JsVal) (k : string) :
  nullish e = false → get e k = Ok (field (entry_fields e) k).
Proof. by destruct e. Qed.

Lemma is_topic_entry_inv (e : JsVal) :
  is_topic_entry e = true →
  nullish e = false ∧ convertible (raw_relevance (entry_fields e)) = true.
Proof.
  unfold is_topic_entry. rewrite andb_true_iff, negb_true_iff. done.
Qed.

Lemma or_else_fields (e : JsVal) (k1 k2 : string) (d : JsVal) :
  nullish e = false →
  get e k1 ||| get e k2 ||| Ok d
  = Ok (first_truthy [field (entry_fields e) k1; field (entry_fields e) k2] d).
Proof.
  intros He. rewrite !get_entry, or_else_Ok by done. cbn.
  destruct (ToBoolean (field (entry_fields e) k1)) eqn:H1.
  - by rewrite or_else_Ok, H1.
  - rewrite !or_else_Ok. by destruct (ToBoolean (field (entry_fields e) k2)).
Qed.

Lemma optional_field (p : JsVal → bool) (m : gmap string JsVal) (k : string) :
  optional p (m !! k) = true → maybe p (Ok (field m k)).
Proof.
  unfold optional, field. intros H. eexists; split; [done|].
  destruct (m !! k) as [v|]; cbn in *; [|by left].
  apply orb_true_iff in H as [H|H]; [left; by apply negb_true_iff | by right].
Qed.

Lemma maybe_or_maybe (p : JsVal → bool) (a b : Result JsVal) :
  maybe p a → maybe p b → maybe p (a ||| b).
Proof.
  intros (v & -> & Hv) Hb. rewrite or_else_Ok.
  destruct (ToBoolean v) eqn:E; [|done].
  exists v. split; [done|]. destruct Hv; [congruence | by right].
Qed.

Lemma maybe_or_selects (p : JsVal → bool) (a b : Result JsVal) :
  maybe p a → selects p b → selects p (a ||| b).
Proof.
  intros (v & -> & Hv) Hb. rewrite or_else_Ok.
  destruct (ToBoolean v) eqn:E; [|done].
  exists v. split; [done|]. destruct Hv; [congruence | done].
Qed.

Lemma get_chain_optional (q : JsVal → bool) (m : gmap string JsVal) (k1 k2 : string) :
  optional (λ v, match v with JObj m' => optional q (m' !! k2) | _ => false end)
    (m !! k1) = true →
  maybe q (get_chain (JObj m) k1 k2).
Proof.
  unfold get_chain. rewrite get_object. cbn. unfold field.
  destruct (m !! k1) as [v|] eqn:E; cbn; [|intros _; exists JUndef; by split; [|left]].
  intros H. apply orb_true_iff in H as [H|H].
  - apply negb_true_iff in H. rewrite (get_opt_falsy _ _ H).
    exists JUndef. by split; [|left].
  - destruct v; try done. by apply optional_field.
Qed.

Lemma optional_platform (keys : list string) (k : string) (o : option JsVal) :
  k ∈ keys →
  optional (is_platform keys) o = true →
  optional (λ v, match v with JObj m' => optional is_post_list (m' !! k) | _ => false end)
    o = true.
Proof.
  intros Hk. destruct o as [v|]; [|done]. cbn.
  destruct (ToBoolean v); [|done]. cbn.
  destruct v; try done. cbn. intros H.
  rewrite forallb_forall in H. apply H. by apply list_elem_of_In.
Qed.

Lemma selects_empty_array (p : JsVal → bool) :
  p (JArr []) = true → selects p (Ok (JArr [])).
Proof. by exists (JArr []). Qed.

Lemma bind_Ok {A B : Type} (a : A) (f : A → Result B) : Ok a ≫= f = f a.
Proof. reflexivity. Qed.

Lemma bind_Throw {A B : Type} (e : JsError) (f : A → Result B) :
  Throw e ≫= f = Throw e.
Proof. reflexivity. Qed.

Lemma bind_Ok_inv {A B : Type} (r : Result A) (f : A → Result B) (b : B) :
  r ≫= f = Ok b → ∃ a, r = Ok a ∧ f a = Ok b.
Proof. destruct r as [a|]; [|done]. intros H. by exists a. Qed.

(** ** Conversions to a string and to a number *)

Lemma JsVal_array_ind (P : JsVal → Prop) :
  (∀ v, (∀ l, v ≠ JArr l) → P v) →
  (∀ l, Forall P l → P (JArr l)) →
  ∀ v, P v.
Proof.
  intros Hother Harr. fix IH 1. intros v.
  destruct v as [| | | | |l|m]; try (by apply Hother).
  apply Harr. induction l as [|x l IHl]; constructor; [apply IH | exact IHl].
Qed.

Section Conversions.

Variable StringToNumber : string → number.
Variable NumberToString : number → string.

Abbreviation ToString' := (ToString NumberToString).
Abbreviation ToNumber' := (ToNumber StringToNumber NumberToString).
Abbreviation normalize' := (normalize StringToNumber NumberToString).

Lemma ToString_cons (x : JsVal) (l : list JsVal) :
  ToString' (JArr (x :: l))
  = (first ← (if nullish x then Ok "" else ToString' x);
     match l with
     | [] => Ok first
     | _ => rest ← ToString' (JArr l); Ok (first +:+ "," +:+ rest)
     end).
Proof. reflexivity. Qed.

(** A conversion raises exactly on the values that hold an object with
    a [toString] key of its own. *)
Lemma ToString_convertible (v : JsVal) :
  (∃ s, ToString' v = Ok s) ↔ convertible v = true.
Proof.
  induction v as [v Hv|l IH] using JsVal_array_ind.
  - destruct v as [| | | | |l|m]; try (split; [done | by eexists]).
    + by destruct (Hv l).
    + cbn. destruct (own_toString m); split; try done;
        first [by intros [] | by eexists].
  - induction IH as [|x l Hx _ IHl]; [split; [done | by eexists]|].
    rewrite ToString_cons. cbn [convertible forallb].
    change (forallb convertible l) with (convertible (JArr l)).
    rewrite andb_true_iff, <- Hx, <- IHl. split.
    + intros [s H]. apply bind_Ok_inv in H as (first & Hf & H).
      split.
      * destruct (nullish x) eqn:Hn; [destruct x; try done; by eexists | by eexists].
      * destruct l as [|y l]; [by eexists|].
        apply bind_Ok_inv in H as (rest & Hr & _). by eexists.
    + intros [[sx Hsx] [sl Hsl]].
      assert (∃ first, (if nullish x then Ok "" else ToString' x) = Ok first) as [first ->].
      { destruct (nullish x); by eexists. }
      rewrite bind_Ok. destruct l as [|y l]; [by eexists|].
      rewrite Hsl, bind_Ok. by eexists.
Qed.

Lemma ToNumber_convertible (v : JsVal) :
  (∃ x, ToNumber' v = Ok x) ↔ convertible v = true.
Proof.
  destruct v as [| | | | |l|m]; try (split; [done | by eexists]);
    rewrite <- ToString_convertible; unfold ToNumber; split.
  - intros [x (s & Hs & _)%bind_Ok_inv]. by eexists.
  - intros [s ->]. by eexists.
  - intros [x (s & Hs & _)%bind_Ok_inv]. by eexists.
  - intros [s ->]. by eexists.
Qed.

(** Lines 72 to 81 on a raw value that converts to the number [v]. *)
Lemma normalize_number (raw : JsVal) (v : number) :
  ToNumber' raw = Ok v → normalize' raw = Ok (JNum (clamp (scale v))).
Proof.
  intros Hv. unfold normalize, gt, div, scale. rewrite Hv, !bind_Ok.
  destruct (less (of_Z 10) v); rewrite ?bind_Ok; [done|].
  destruct (less (of_Z 1) v); rewrite ?bind_Ok; [done|].
  unfold Math_max. by rewrite Hv.
Qed.

Lemma normalize_raises (raw : JsVal) (err : JsError) :
  ToNumber' raw = Throw err → normalize' raw = Throw err.
Proof. intros Hv. unfold normalize, gt. by rewrite Hv. Qed.

Lemma normalize_convertible (raw : JsVal) :
  (∃ r, normalize' raw = Ok r) ↔ convertible raw = true.
Proof.
  rewrite <- ToNumber_convertible. split.
  - intros [r H]. destruct (ToNumber' raw) as [v|err] eqn:Hv; [by eexists|].
    by rewrite (normalize_raises _ _ Hv) in H.
  - intros [v Hv]. rewrite (normalize_number _ _ Hv). by eexists.
Qed.

Lemma normalize_normalized (raw : JsVal) :
  convertible raw = true →
  normalize' raw = Ok (normalized StringToNumber NumberToString raw).
Proof.
  intros [r Hr]%normalize_convertible. unfold normalized. by rewrite Hr.
Qed.

(** The result is [NaN] or lies in [0,1]; it lies in [0,1] when the raw
    value converts to a number that is not [NaN]. *)
Lemma normalize_cases (raw r : JsVal) :
  normalize' raw = Ok r →
  r = JNum NaN ∨
  ∃ x : number, r = JNum x ∧ at_most (of_Z 0) x = true ∧ at_most x (of_Z 1) = true.
Proof.
  intros H. destruct (ToNumber' raw) as [v|err] eqn:Hv.
  - rewrite (normalize_number _ _ Hv) in H. injection H as <-.
    destruct (clamp_cases (scale v)) as [->|Hb]; [by left | right; by eexists].
  - by rewrite (normalize_raises _ _ Hv) in H.
Qed.

Lemma normalize_bounds (raw : JsVal) (v : number) :
  ToNumber' raw = Ok v → v ≠ NaN →
  ∃ x : number, normalize' raw = Ok (JNum x) ∧
                at_most (of_Z 0) x = true ∧ at_most x (of_Z 1) = true.
Proof.
  intros Hv Hn. rewrite (normalize_number _ _ Hv). eexists. split; [done|].
  by apply clamp_scale_bounds.
Qed.

(** A raw value that is not above 0 (or is [NaN]) ends as a falsy
    number: [NaN] or +0. *)
Lemma normalize_not_positive (raw : JsVal) (v : number) :
  ToNumber' raw = Ok v → less (of_Z 0) v = false →
  ∃ r, normalize' raw = Ok r ∧ ToBoolean r = false.
Proof.
  intros Hv Hle. rewrite (normalize_number _ _ Hv). eexists. split; [done|].
  destruct v as [s|s| |s m e]; try destruct s; try (by vm_compute in Hle);
    by vm_compute.
Qed.

End Conversions.

(** ** The selected sequences of a well-shaped result *)

Lemma aiTopics_shape (data : JsVal) :
  RawResearchResult data = true →
  ∃ l, aiTopics data = Ok (JArr l) ∧ Forall (λ e, is_topic_entry e = true) l.
Proof.
  destruct data as [| | | | | |m]; try done. cbn [RawResearchResult].
  rewrite !andb_true_iff. intros [[[[[H1 H2] _] _] _] _].
  assert (selects is_topic_list (aiTopics (JObj m))) as (v & Hv & Hp).
  { unfold aiTopics. apply maybe_or_selects; [|by apply selects_empty_array].
    apply maybe_or_maybe.
    - rewrite get_object. by apply optional_field.
    - by apply get_chain_optional. }
  destruct v as [| | | | |l|]; try done. exists l. split; [done|].
  cbn in Hp. rewrite forallb_forall in Hp.
  apply Forall_forall. by intros e He%list_elem_of_In%Hp.
Qed.

Lemma posts_shape (a b : Result JsVal) :
  maybe is_post_list a → maybe is_post_list b → ∃ l, a ||| b ||| Ok (JArr []) = Ok (JArr l).
Proof.
  intros Ha Hb.
  destruct (maybe_or_selects is_post_list (a ||| b) (Ok (JArr [])))
    as (v & Hv & Hp); [by apply maybe_or_maybe | by apply selects_empty_array |].
  destruct v; try done. by eexists.
Qed.

Lemma single_posts_shape (a : Result JsVal) :
  maybe is_post_list a → ∃ l, a ||| Ok (JArr []) = Ok (JArr l).
Proof.
  intros Ha.
  destruct (maybe_or_selects is_post_list a (Ok (JArr [])))
    as (v & Hv & Hp); [done | by apply selects_empty_array |].
  destruct v; try done. by eexists.
Qed.

Lemma platform_chain (keys : list string) (m : gmap string JsVal) (r k : string) :
  k ∈ keys →
  optional (is_platform keys) (m !! r) = true →
  maybe is_post_list (get_chain (JObj m) r k).
Proof.
  intros Hk H. apply get_chain_optional. by eapply optional_platform.
Qed.

Section ExtractorFacts.

Variable StringToNumber : string → number.
Variable NumberToString : number → string.

Abbreviation push_topic' := (push_topic StringToNumber NumberToString).
Abbreviation topic_of' := (topic_of StringToNumber NumberToString).
Abbreviation topics_of' := (topics_of StringToNumber NumberToString).
Abbreviation extract := (extractTopicsWithSources StringToNumber NumberToString).

Lemma posts_selected (data : JsVal) :
  RawResearchResult data = true →
  ∃ tw tk th rd,
    twitterPosts data = Ok (JArr tw) ∧ tiktokPosts data = Ok (JArr tk) ∧
    threadsPosts data = Ok (JArr th) ∧ redditPosts data = Ok (JArr rd).
Proof.
  destruct data as [| | | | | |m]; try done. cbn [RawResearchResult].
  rewrite !andb_true_iff. intros [[[[[_ _] Htw] Htk] Hth] Hrd].
  destruct (posts_shape (get_chain (JObj m) "twitter_results" "sample_posts")
              (get_chain (JObj m) "twitter_results" "trending_topics")) as [tw Etw];
    [eapply platform_chain; [|done]; set_solver ..|].
  destruct (posts_shape (get_chain (JObj m) "tiktok_results" "sample_posts")
              (get_chain (JObj m) "tiktok_results" "sample_captions")) as [tk Etk];
    [eapply platform_chain; [|done]; set_solver ..|].
  destruct (single_posts_shape (get_chain (JObj m) "threads_results" "sample_posts"))
    as [th Eth]; [eapply platform_chain; [|done]; set_solver|].
  destruct (posts_shape (get_chain (JObj m) "reddit_results" "sample_posts")
              (get_chain (JObj m) "reddit_results" "sample_titles")) as [rd Erd];
    [eapply platform_chain; [|done]; set_solver ..|].
  by exists tw, tk, th, rd.
Qed.

Lemma push_topic_entry (tw tk th rd : list JsVal) (e : JsVal)
    (index : nat) (topics : list Topic) :
  is_topic_entry e = true →
  push_topic' (JArr tw) (JArr tk) (JArr th) (JArr rd) e index topics
  = Ok (topics ++ [topic_of' tw tk th rd index (entry_fields e)]).
Proof.
  intros [Hn Hc]%is_topic_entry_inv. unfold push_topic.
  rewrite !or_else_fields, !bind_Ok by done.
  fold (raw_relevance (entry_fields e)).
  by rewrite (normalize_normalized StringToNumber NumberToString _ Hc).
Qed.

Lemma forEach_from_entries (tw tk th rd l : list JsVal) (index : nat) (topics : list Topic) :
  Forall (λ e, is_topic_entry e = true) l →
  forEach_from (push_topic' (JArr tw) (JArr tk) (JArr th) (JArr rd)) l index topics
  = Ok (topics ++ imap (λ j e, topic_of' tw tk th rd (index + j) (entry_fields e)) l).
Proof.
  intros Hl. revert index topics.
  induction Hl as [|x l Hx _ IH]; intros index topics; cbn [forEach_from].
  - by rewrite app_nil_r.
  - rewrite push_topic_entry by done. rewrite bind_Ok. rewrite IH, <- app_assoc. cbn.
    rewrite Nat.add_0_r. do 3 f_equal.
    apply imap_ext. intros j e _. cbn. f_equal. lia.
Qed.

(** The extractor on a well-shaped result, in closed form. *)
Lemma extract_shape (data : JsVal) :
  RawResearchResult data = true →
  ∃ l tw tk th rd,
    aiTopics data = Ok (JArr l) ∧ Forall (λ e, is_topic_entry e = true) l ∧
    twitterPosts data = Ok (JArr tw) ∧ tiktokPosts data = Ok (JArr tk) ∧
    threadsPosts data = Ok (JArr th) ∧ redditPosts data = Ok (JArr rd) ∧
    extract data = Ok (topics_of' tw tk th rd l).
Proof.
  intros H.
  destruct (aiTopics_shape data H) as (l & El & Hl).
  destruct (posts_selected data H) as (tw & tk & th & rd & Etw & Etk & Eth & Erd).
  exists l, tw, tk, th, rd. repeat (split; [done|]).
  unfold extractTopicsWithSources, forEach.
  rewrite El, Etw, Etk, Eth, Erd, !bind_Ok, slice_array, bind_Ok.
  cbn [drop]. rewrite forEach_from_entries; [done | by apply Forall_take].
Qed.

Lemma topics_of_length (tw tk th rd l : list JsVal) :
  length (topics_of' tw tk th rd l) = length l `min` 8.
Proof. unfold topics_of. rewrite length_imap, length_take. lia. Qed.

Lemma topics_of_lookup (tw tk th rd l : list JsVal) (i : nat) (e : JsVal) :
  i < 8 → l !! i = Some e →
  topics_of' tw tk th rd l !! i = Some (topic_of' tw tk th rd i (entry_fields e)).
Proof.
  intros Hi He. unfold topics_of.
  by rewrite list_lookup_imap, lookup_take_lt, He.
Qed.

End ExtractorFacts.

(** ** What the extractor returns on a research result *)

Section Claims.

Variable StringToNumber : string → number.
Variable NumberToString : number → string.

Abbreviation ToNumber' := (ToNumber StringToNumber NumberToString).
Abbreviation normalize' := (normalize StringToNumber NumberToString).
Abbreviation normalized' := (normalized StringToNumber NumberToString).
Abbreviation topic_of' := (topic_of StringToNumber NumberToString).
Abbreviation topics_of' := (topics_of StringToNumber NumberToString).
Abbreviation extract := (extractTopicsWithSources StringToNumber NumberToString).

(** The topic at a position below 8 of the selected sequence. *)
Lemma extract_topic_at (data : JsVal) (l : list JsVal) (i : nat) (e : JsVal) :
  RawResearchResult data = true →
  aiTopics data = Ok (JArr l) →
  i < 8 → l !! i = Some e →
  ∃ ts tw tk th rd,
    twitterPosts data = Ok (JArr tw) ∧ tiktokPosts data = Ok (JArr tk) ∧
    threadsPosts data = Ok (JArr th) ∧ redditPosts data = Ok (JArr rd) ∧
    extract data = Ok ts ∧
    ts !! i = Some (topic_of' tw tk th rd i (entry_fields e)) ∧
    normalize' (raw_relevance (entry_fields e))
      = Ok (normalized' (raw_relevance (entry_fields e))).
Proof.
  intros H Hl Hi He.
  destruct (extract_shape StringToNumber NumberToString data H)
    as (l' & tw & tk & th & rd & El & Hall & Etw & Etk & Eth & Erd & E).
  assert (l' = l) as -> by congruence.
  exists (topics_of' tw tk th rd l), tw, tk, th, rd.
  repeat (split; [done|]). split; [by apply topics_of_lookup|].
  rewrite Forall_forall in Hall.
  destruct (is_topic_entry_inv e) as [_ Hc];
    [apply Hall; by eapply list_elem_of_lookup_2|].
  by apply normalize_normalized.
Qed.

(** C1: on a research result whose selected AI-topic sequence [l] has
    length N, the extractor returns, without raising, exactly min(N, 8)
    topics, whose [id] fields are 0, 1, ..., min(N, 8) - 1 in this order; for
    an empty sequence it returns the empty list. *)
Theorem extract_count_and_ids (data : JsVal) (l : list JsVal) :
  RawResearchResult data = true →
  aiTopics data = Ok (JArr l) →
  ∃ ts, extract data = Ok ts ∧
        length ts = length l `min` 8 ∧
        id <$> ts = seq 0 (length l `min` 8) ∧
        (l = [] → ts = []).
Proof.
  intros H Hl.
  destruct (extract_shape StringToNumber NumberToString data H)
    as (l' & tw & tk & th & rd & El & _ & _ & _ & _ & _ & E).
  assert (l' = l) as -> by congruence.
  exists (topics_of' tw tk th rd l). split; [done|].
  split; [apply topics_of_length|]. split.
  - unfold topics_of. rewrite fmap_imap.
    transitivity (imap (λ j _, j) (take 8 l)); [by apply imap_ext|].
    rewrite imap_seq_0, list_fmap_id, length_take. f_equal. lia.
  - by intros ->.
Qed.

(** C2: a raw value that converts to the number v is mapped to v/100
    when v > 10, to v/10 when 1 < v <= 10 and is left as it is otherwise
    (when v <= 1 in particular), and the result is then clamped into
    [0,1]: anything below 0 becomes 0, anything above 1 becomes 1, and what
    lies between stays.  The quotients are those of binary64 doubles.  So
    the normalized value lies in [0,1] for every raw number, and the
    [relevanceScore] of every returned topic is the normalized raw
    relevance of its entry, in [0,1] whenever that raw value is a number.
    Raw 75 gives 0.75, raw 8 gives 0.8, raw 0.6 gives 0.6, and a negative
    raw value gives 0. *)
Theorem normalize_scale_and_clamp :
  (∀ (raw : JsVal) (v : number),
     ToNumber' raw = Ok v →
     (less (of_Z 10) v = true →
        normalize' raw = Ok (JNum (clamp (divide v (of_Z 100))))) ∧
     (less (of_Z 1) v = true → at_most v (of_Z 10) = true →
        normalize' raw = Ok (JNum (clamp (divide v (of_Z 10))))) ∧
     (less (of_Z 10) v = false → less (of_Z 1) v = false →
        normalize' raw = Ok (JNum (clamp v))) ∧
     (at_most v (of_Z 1) = true → normalize' raw = Ok (JNum (clamp v))) ∧
     (less v (of_Z 0) = true → normalize' raw = Ok (lit 0)) ∧
     (v ≠ NaN →
        ∃ r : number, normalize' raw = Ok (JNum r) ∧
                      at_most (of_Z 0) r = true ∧ at_most r (of_Z 1) = true)) ∧
  (∀ x : number,
     (less x (of_Z 0) = true → clamp x = of_Z 0) ∧
     (less (of_Z 1) x = true → clamp x = of_Z 1) ∧
     (at_most (of_Z 0) x = true → at_most x (of_Z 1) = true →
        x ≠ S754_zero true → clamp x = x)) ∧
  normalize' (lit 75) = Ok (JNum (decimal 75 2)) ∧
  normalize' (lit 8) = Ok (JNum (decimal 8 1)) ∧
  normalize' (JNum (decimal 6 1)) = Ok (JNum (decimal 6 1)) ∧
  (∀ (data : JsVal) (l : list JsVal) (i : nat) (e : JsVal),
     RawResearchResult data = true →
     aiTopics data = Ok (JArr l) →
     i < 8 → l !! i = Some e →
     ∃ ts t, extract data = Ok ts ∧ ts !! i = Some t ∧
       normalize' (raw_relevance (entry_fields e)) = Ok (relevanceScore t) ∧
       (∀ v : number,
          ToNumber' (raw_relevance (entry_fields e)) = Ok v → v ≠ NaN →
          ∃ r : number, relevanceScore t = JNum r ∧
                        at_most (of_Z 0) r = true ∧ at_most r (of_Z 1) = true)).
Proof.
  split; [|split].
  { intros raw v Hv. rewrite (normalize_number _ _ _ _ Hv).
    split; [intros H10; unfold scale; by rewrite H10|].
    split; [intros H1 H10; unfold scale;
            by rewrite (at_most_not_less _ _ H10), H1|].
    split; [intros H10 H1; unfold scale; by rewrite H10, H1|].
    split; [intros H1; unfold scale;
            by rewrite (at_most_1_not_above_10 _ H1), (at_most_not_less _ _ H1)|].
    split.
    - intros H0. unfold lit. do 2 f_equal.
      destruct v as [s|s| |s m e]; try destruct s; try (by vm_compute in H0);
        by vm_compute.
    - intros Hn. eexists. split; [done|]. by apply clamp_scale_bounds. }
  { intros x. split; [apply clamp_below|]. split; [apply clamp_above | apply clamp_within]. }
  do 3 (split; [vm_compute; reflexivity|]).
  intros data l i e H Hl Hi He.
  destruct (extract_topic_at data l i _ H Hl Hi He)
    as (ts & tw & tk & th & rd & _ & _ & _ & _ & E & Et & Hn).
  exists ts, (topic_of' tw tk th rd i (entry_fields e)).
  repeat (split; [done|]). cbn [relevanceScore topic_of].
  intros v Hv Hnan.
  destruct (normalize_bounds _ _ _ _ Hv Hnan) as (r & Hr & Hb).
  exists r. split; [congruence | done].
Qed.

(** C8: the extractor never raises on a research result in which any key
    (the AI-topic list, each per-platform post list, each field of each
    topic entry) may be absent, [null] or empty: it returns a list of
    topics. *)
Theorem extract_total (data : JsVal) :
  RawResearchResult data = true → ∃ ts, extract data = Ok ts.
Proof.
  intros H.
  destruct (extract_shape StringToNumber NumberToString data H)
    as (l & tw & tk & th & rd & _ & _ & _ & _ & _ & _ & E).
  by eexists.
Qed.

(** C10: an entry whose [relevance_score] field is present with the
    value 0, and whose [score] field is absent or 0, gets the
    [relevanceScore] 0.8 (the normalized default 8), not 0. *)
Theorem zero_relevance_score_gets_default
    (data : JsVal) (l : list JsVal) (i : nat) (m : gmap string JsVal) (s : bool) :
  RawResearchResult data = true →
  aiTopics data = Ok (JArr l) →
  i < 8 → l !! i = Some (JObj m) →
  m !! "relevance_score" = Some (JNum (S754_zero s)) →
  (m !! "score" = None ∨ ∃ s', m !! "score" = Some (JNum (S754_zero s'))) →
  ∃ ts t, extract data = Ok ts ∧ ts !! i = Some t ∧
          relevanceScore t = JNum (decimal 8 1).
Proof.
  intros H Hl Hi He Hrs Hsc.
  destruct (extract_topic_at data l i _ H Hl Hi He)
    as (ts & tw & tk & th & rd & _ & _ & _ & _ & E & Et & _).
  exists ts, (topic_of' tw tk th rd i m). repeat (split; [done|]).
  cbn [relevanceScore topic_of]. unfold raw_relevance, field. rewrite Hrs.
  destruct Hsc as [->|(s' & ->)]; by vm_compute.
Qed.

(** C3, as the code has it: the raw relevance is the first truthy of the
    fields [relevance_score] and [score] (present, not [null], not 0), and
    the default 8 is used exactly when both are falsy (absent, [null], 0
    or another falsy value); a present non-zero [relevance_score] is used
    even when [score] is present as well. *)
Theorem relevance_first_truthy
    (data : JsVal) (l : list JsVal) (i : nat) (m : gmap string JsVal) :
  RawResearchResult data = true →
  aiTopics data = Ok (JArr l) →
  i < 8 → l !! i = Some (JObj m) →
  ∃ ts t, extract data = Ok ts ∧ ts !! i = Some t ∧
    (ToBoolean (field m "relevance_score") = true →
       normalize' (field m "relevance_score") = Ok (relevanceScore t)) ∧
    (ToBoolean (field m "relevance_score") = false →
     ToBoolean (field m "score") = true →
       normalize' (field m "score") = Ok (relevanceScore t)) ∧
    (ToBoolean (field m "relevance_score") = false →
     ToBoolean (field m "score") = false →
       normalize' (lit 8) = Ok (relevanceScore t)) ∧
    (∀ x : number, m !! "relevance_score" = Some (JNum x) →
       ToBoolean (JNum x) = true →
       normalize' (JNum x) = Ok (relevanceScore t)).
Proof.
  intros H Hl Hi He.
  destruct (extract_topic_at data l i _ H Hl Hi He)
    as (ts & tw & tk & th & rd & _ & _ & _ & _ & E & Et & Hn).
  exists ts, (topic_of' tw tk th rd i m). repeat (split; [done|]).
  cbn [relevanceScore topic_of entry_fields] in *. rewrite <- Hn.
  unfold raw_relevance. cbn [first_truthy].
  split; [|split; [|split]]; [intros; repeat case_match; congruence ..|].
  intros x Hx Hne. unfold field. rewrite Hx.
  change (default JUndef (Some (JNum x))) with (JNum x). by rewrite Hne.
Qed.

(** C4, as the code has it: the title is the first truthy of the fields
    [title] and [topic] (present, not [null], not the empty string), and
    the label "Topic " + (i+1) is used exactly when both are falsy; an
    entry with neither field at position 2 gets the title "Topic 3". *)
Theorem title_first_truthy
    (data : JsVal) (l : list JsVal) (i : nat) (m : gmap string JsVal) :
  RawResearchResult data = true →
  aiTopics data = Ok (JArr l) →
  i < 8 → l !! i = Some (JObj m) →
  ∃ ts t, extract data = Ok ts ∧ ts !! i = Some t ∧
    (ToBoolean (field m "title") = true → title t = field m "title") ∧
    (ToBoolean (field m "title") = false → ToBoolean (field m "topic") = true →
       title t = field m "topic") ∧
    (ToBoolean (field m "title") = false → ToBoolean (field m "topic") = false →
       title t = JStr ("Topic " +:+ pretty (i + 1))) ∧
    (m !! "title" = None → m !! "topic" = None → i = 2 → title t = JStr "Topic 3").
Proof.
  intros H Hl Hi He.
  destruct (extract_topic_at data l i _ H Hl Hi He)
    as (ts & tw & tk & th & rd & _ & _ & _ & _ & E & Et & _).
  exists ts, (topic_of' tw tk th rd i m). repeat (split; [done|]).
  unfold topic_of. cbn [title entry_fields first_truthy].
  split; [|split; [|split]]; [intros; repeat case_match; congruence ..|].
  intros Ht Hto ->. unfold field. by rewrite Ht, Hto.
Qed.

(** C5: the topic at position i gets as twitter sources the at most 2
    consecutive posts from offset 2*i of the twitter candidates: the posts
    at the indices 2*i and 2*i+1 that exist.  With candidates [p0..p5],
    topics 0, 1 and 2 get [p0,p1], [p2,p3] and [p4,p5].  The index windows
    of two distinct topics share no index, and a window that leaves the
    candidates yields fewer or no posts, without an exception. *)
Theorem twitter_sources_disjoint_pairs
    (data : JsVal) (l posts : list JsVal) (i : nat) (e : JsVal) :
  RawResearchResult data = true →
  aiTopics data = Ok (JArr l) →
  twitterPosts data = Ok (JArr posts) →
  i < 8 → l !! i = Some e →
  ∃ ts t, extract data = Ok ts ∧ ts !! i = Some t ∧
    twitter (sources t) = JArr (take 2 (drop (2 * i) posts)) ∧
    twitter (sources t)
      = JArr (omap (λ k, posts !! k) (twitter_window (length posts) i)) ∧
    length (take 2 (drop (2 * i) posts)) ≤ 2 ∧
    (length posts ≤ 2 * i → twitter (sources t) = JArr []) ∧
    (∀ j k, i ≠ j → k ∈ twitter_window (length posts) i →
            k ∉ twitter_window (length posts) j) ∧
    (∀ p0 p1 p2 p3 p4 p5, posts = [p0; p1; p2; p3; p4; p5] →
       (i = 0 → twitter (sources t) = JArr [p0; p1]) ∧
       (i = 1 → twitter (sources t) = JArr [p2; p3]) ∧
       (i = 2 → twitter (sources t) = JArr [p4; p5])).
Proof.
  intros H Hl Hp Hi He.
  destruct (extract_topic_at data l i _ H Hl Hi He)
    as (ts & tw & tk & th & rd & Etw & _ & _ & _ & E & Et & _).
  assert (tw = posts) as -> by congruence.
  exists ts, (topic_of' posts tk th rd i (entry_fields e)).
  repeat (split; [done|]). cbn [sources twitter topic_of].
  assert (Array_slice posts (i * 2) (i * 2 + 2) = take 2 (drop (2 * i) posts)) as Hs.
  { rewrite Array_slice_take_drop. by replace (i * 2 + 2 - i * 2) with 2 by lia;
      replace (i * 2) with (2 * i) by lia. }
  split; [by rewrite Hs|]. split; [done|].
  split; [rewrite length_take; lia|].
  split; [intros Hout; by rewrite Hs, drop_ge, take_nil by lia|].
  split; [intros j k; apply twitter_window_disjoint|].
  intros p0 p1 p2 p3 p4 p5 ->. rewrite Hs. by repeat split; intros ->.
Qed.

(** C6: for tiktok, threads and reddit, the topic at position i gets the
    at most 1 post at offset i of the platform's candidates.  With
    candidates [q0,q1,q2], topics 0, 1 and 2 get [q0], [q1] and [q2]. *)
Theorem single_post_sources
    (data : JsVal) (l tk th rd : list JsVal) (i : nat) (e : JsVal) :
  RawResearchResult data = true →
  aiTopics data = Ok (JArr l) →
  tiktokPosts data = Ok (JArr tk) →
  threadsPosts data = Ok (JArr th) →
  redditPosts data = Ok (JArr rd) →
  i < 8 → l !! i = Some e →
  ∃ ts t, extract data = Ok ts ∧ ts !! i = Some t ∧
    tiktok (sources t) = JArr (take 1 (drop i tk)) ∧
    threads (sources t) = JArr (take 1 (drop i th)) ∧
    reddit (sources t) = JArr (take 1 (drop i rd)) ∧
    (∀ q0 q1 q2, tk = [q0; q1; q2] →
       (i = 0 → tiktok (sources t) = JArr [q0]) ∧
       (i = 1 → tiktok (sources t) = JArr [q1]) ∧
       (i = 2 → tiktok (sources t) = JArr [q2])) ∧
    (∀ q0 q1 q2, th = [q0; q1; q2] →
       (i = 0 → threads (sources t) = JArr [q0]) ∧
       (i = 1 → threads (sources t) = JArr [q1]) ∧
       (i = 2 → threads (sources t) = JArr [q2])) ∧
    (∀ q0 q1 q2, rd = [q0; q1; q2] →
       (i = 0 → reddit (sources t) = JArr [q0]) ∧
       (i = 1 → reddit (sources t) = JArr [q1]) ∧
       (i = 2 → reddit (sources t) = JArr [q2])).
Proof.
  intros H Hl Htk Hth Hrd Hi He.
  destruct (extract_topic_at data l i _ H Hl Hi He)
    as (ts & tw & tk' & th' & rd' & _ & Etk & Eth & Erd & E & Et & _).
  assert (tk' = tk) as -> by congruence.
  assert (th' = th) as -> by congruence.
  assert (rd' = rd) as -> by congruence.
  exists ts, (topic_of' tw tk th rd i (entry_fields e)).
  repeat (split; [done|]). cbn [sources tiktok threads reddit topic_of].
  rewrite !Array_slice_take_drop. replace (i + 1 - i) with 1 by lia.
  repeat (split; [done|]).
  repeat split; intros; by subst.
Qed.

(** C7, as the code has it: for tiktok, threads and reddit, the
    single-post windows of two distinct topics never overlap: the topic at
    position i only reads the post index i, so no post index is used for two
    topics. *)
Theorem single_post_windows_disjoint
    (data : JsVal) (l tk th rd : list JsVal) (i j : nat) (ei ej : JsVal) :
  RawResearchResult data = true →
  aiTopics data = Ok (JArr l) →
  tiktokPosts data = Ok (JArr tk) →
  threadsPosts data = Ok (JArr th) →
  redditPosts data = Ok (JArr rd) →
  i < 8 → l !! i = Some ei →
  j < 8 → l !! j = Some ej →
  i ≠ j →
  ∃ ts ti tj, extract data = Ok ts ∧ ts !! i = Some ti ∧ ts !! j = Some tj ∧
    reads_single_windows tk th rd i ti ∧
    reads_single_windows tk th rd j tj ∧
    (∀ len k, k ∈ single_window len i → k ∉ single_window len j).
Proof.
  intros H Hl Htk Hth Hrd Hi Hei Hj Hej Hij.
  destruct (extract_topic_at data l i _ H Hl Hi Hei)
    as (ts & tw & tk' & th' & rd' & Etw & Etk & Eth & Erd & E & Eti & _).
  destruct (extract_topic_at data l j _ H Hl Hj Hej)
    as (ts' & tw' & tk'' & th'' & rd'' & Etw' & Etk' & Eth' & Erd' & E' & Etj & _).
  assert (ts' = ts) as -> by congruence.
  assert (tw' = tw) as -> by congruence.
  assert (tk' = tk) as -> by congruence. assert (tk'' = tk) as -> by congruence.
  assert (th' = th) as -> by congruence. assert (th'' = th) as -> by congruence.
  assert (rd' = rd) as -> by congruence. assert (rd'' = rd) as -> by congruence.
  exists ts, (topic_of' tw tk th rd i (entry_fields ei)),
    (topic_of' tw tk th rd j (entry_fields ej)).
  repeat (split; [done|]).
  intros len k. by apply single_window_disjoint.
Qed.

End Claims.

(** ** The research call and the persisted topics *)

Section HomePageFacts.

Variable StringToNumber : string → number.
Variable NumberToString : number → string.
Variable JSON_stringify : list Topic → string.
Variable JSON_parse : string → list Topic.

Abbreviation extract := (extractTopicsWithSources StringToNumber NumberToString).
Abbreviation saveTopics' := (saveTopics JSON_stringify).
Abbreviation step' :=
  (step StringToNumber NumberToString JSON_stringify JSON_parse).
Abbreviation run' :=
  (run StringToNumber NumberToString JSON_stringify JSON_parse).
Abbreviation extracted_in' := (extracted_in StringToNumber NumberToString).

Lemma saveTopics_empty (w : World) : topics w = [] → saveTopics' w = w.
Proof. unfold saveTopics. by intros ->. Qed.

Lemma saveTopics_written (w : World) :
  setItemCalls (saveTopics' w) ≠ setItemCalls w →
  topics w ≠ [] ∧ podcastTopics (saveTopics' w) = Some (JSON_stringify (topics w)).
Proof.
  unfold saveTopics. by destruct (topics w) as [|t ts].
Qed.

Lemma onError_spec (err : JsError) (w : World) :
  (∃ msg, error (onError err w) = Some msg ∧ msg ≠ "") ∧
  isLoading (onError err w) = false ∧
  podcastTopics (onError err w) = podcastTopics w ∧
  setItemCalls (onError err w) = setItemCalls w.
Proof.
  split; [|done]. cbn. eexists; split; [done|].
  destruct (String.eqb_spec (message err) ""); by cbn.
Qed.

Ltac saved_in H :=
  match type of H with
  | context [saveTopics _ ?W] => apply (saveTopics_written W) in H
  end.

(** Which steps call [setItem]. *)
Lemma step_written (w : World) (e : Event) :
  setItemCalls (step' w e) ≠ setItemCalls w →
  (∃ data extractedTopics,
      e = FetchResolved data ∧ extract data = Ok extractedTopics ∧
      extractedTopics ≠ [] ∧
      podcastTopics (step' w e) = Some (JSON_stringify extractedTopics)) ∨
  (∃ s, e = Mount ∧ podcastTopics w = Some s ∧ JSON_parse s ≠ [] ∧
        podcastTopics (step' w e) = Some (JSON_stringify (JSON_parse s))).
Proof.
  destruct e as [| |data|err]; cbn [step].
  - unfold mount. intros H. saved_in H. destruct H as [Hne Hw]. right.
    cbn [topics podcastTopics] in *. destruct (podcastTopics w) as [s|]; [|done].
    destruct (ToBoolean (JStr s)); [|done]. by exists s.
  - unfold generateIdeas. rewrite saveTopics_empty by done. by intros [].
  - unfold onData. destruct (extract data) as [ts|err] eqn:E; [|by intros []].
    intros H. saved_in H. destruct H as [Hne Hw]. left. by exists data, ts.
  - by intros [].
Qed.

Lemma saveTopics_unwritten (w : World) :
  setItemCalls (saveTopics' w) = setItemCalls w →
  podcastTopics (saveTopics' w) = podcastTopics w.
Proof.
  unfold saveTopics. destruct (0 <? length (topics w)); [|done].
  cbn. intros Habs. exfalso.
  apply (f_equal length) in Habs. cbn in Habs. lia.
Qed.

Ltac same_in H :=
  match type of H with
  | context [saveTopics _ ?W] => apply (saveTopics_unwritten W) in H
  end.

Lemma step_unwritten (w : World) (e : Event) :
  setItemCalls (step' w e) = setItemCalls w →
  podcastTopics (step' w e) = podcastTopics w.
Proof.
  destruct e as [| |data|err]; cbn [step]; [| | |done].
  - unfold mount. intros H. by same_in H.
  - unfold generateIdeas. intros H. by same_in H.
  - unfold onData. destruct (extract data); [|done]. intros H. by same_in H.
Qed.

(** From a fresh browser, the entry exists only once a research call has
    succeeded with a non-empty list. *)
Lemma run_fresh_invariant (es : list Event) :
  (podcastTopics (run' fresh es) = None ∧ setItemCalls (run' fresh es) = []) ∨
  extracted_in' es.
Proof.
  induction es as [|e es IH] using rev_ind; [by left|].
  unfold run in *. rewrite foldl_app. cbn [foldl].
  destruct IH as [[Hnone Hlog]|(data & ts & Hin & E & Hne)].
  - destruct (decide (setItemCalls (step' (foldl step' fresh es) e)
                      = setItemCalls (foldl step' fresh es))) as [Heq|Hneq].
    + left. split; [|congruence]. rewrite <- Hnone. by apply step_unwritten.
    + apply step_written in Hneq as [(data & ts & -> & E & Hne & _)|(s & _ & Hs & _)].
      * right. exists data, ts. split; [|done]. apply elem_of_app. right. by left.
      * congruence.
  - right. exists data, ts. split; [|done]. apply elem_of_app. by left.
Qed.

(** When the promise of a research call is rejected (the network failed,
    or the body was not JSON) or the extractor raises on the body, the
    component shows an error, and the persisted topic list is left as it
    was: no [setItem] happens, neither in the handler nor in a whole
    failed call ([generateIdeas], then the rejection).  From a fresh
    browser, [setItem] is only ever called after a research call has
    succeeded and the extractor has returned a non-empty list; within a
    page, the call that follows such an extraction is the only one besides
    the write-back of the loaded list when the page is opened. *)
Theorem research_failure_keeps_persisted_topics :
  (∀ (w : World) (e : Event),
     (∃ err, e = FetchRejected err) ∨
     (∃ data err, e = FetchResolved data ∧ extract data = Throw err) →
     (∃ msg, error (step' w e) = Some msg ∧ msg ≠ "") ∧
     isLoading (step' w e) = false ∧
     podcastTopics (step' w e) = podcastTopics w ∧
     setItemCalls (step' w e) = setItemCalls w) ∧
  (∀ (w : World) (err : JsError),
     error (run' w [GenerateIdeas; FetchRejected err]) ≠ None ∧
     podcastTopics (run' w [GenerateIdeas; FetchRejected err]) = podcastTopics w ∧
     setItemCalls (run' w [GenerateIdeas; FetchRejected err]) = setItemCalls w) ∧
  (∀ es : list Event,
     setItemCalls (run' fresh es) ≠ [] ∨ podcastTopics (run' fresh es) ≠ None →
     extracted_in' es) ∧
  (∀ (w : World) (e : Event),
     e ≠ Mount →
     setItemCalls (step' w e) ≠ setItemCalls w ∨
     podcastTopics (step' w e) ≠ podcastTopics w →
     ∃ data extractedTopics,
       e = FetchResolved data ∧ extract data = Ok extractedTopics ∧
       extractedTopics ≠ [] ∧
       podcastTopics (step' w e) = Some (JSON_stringify extractedTopics)).
Proof.
  split; [|split; [|split]].
  - intros w e [[err ->]|(data & err & -> & E)]; cbn [step].
    + apply onError_spec.
    + unfold onData. rewrite E. apply onError_spec.
  - intros w err. unfold run. cbn [foldl step]. unfold generateIdeas.
    by rewrite saveTopics_empty.
  - intros es H. destruct (run_fresh_invariant es) as [[Hnone Hlog]|]; [|done].
    by destruct H.
  - intros w e Hm H.
    assert (setItemCalls (step' w e) ≠ setItemCalls w) as Hw.
    { destruct H as [|H]; [done|]. intros Heq. by apply H, step_unwritten. }
    apply step_written in Hw as [?|(s & -> & _)]; done.
Qed.

(** A body that carries no topics (the JSON body of an error answer of the
    server, say) is not a failure for [fetch]: the topics are emptied,
    nothing is persisted, and no error is set. *)
Lemma body_without_topics (w : World) (detail : JsVal) :
  let w' := step' w (FetchResolved (JObj {[ "detail" := detail ]})) in
  topics w' = [] ∧ error w' = error w ∧
  podcastTopics w' = podcastTopics w ∧ setItemCalls w' = setItemCalls w.
Proof. cbn [step]. unfold onData. by vm_compute. Qed.

(** C9 on a request that the server rejects: the answer has the status
    500 and the JSON body [{"detail": ...}].  [res.ok] is false, yet
    nothing reads it: after [generateIdeas] and this answer no error is
    set and no error panel is shown, the page is back on its hero with no
    topics, as if nothing had been asked.  The persisted entry is left as
    it was. *)
Theorem rejected_request_shows_no_error (w : World) (detail : JsVal) :
  let res := {| status := 500; json := Some (JObj {[ "detail" := detail ]}) |} in
  let w' := run' w [GenerateIdeas; onResponse res] in
  ok res = false ∧
  error w' = None ∧ showsError w' = false ∧
  isLoading w' = false ∧ topics w' = [] ∧ showsHero w' = true ∧
  podcastTopics w' = podcastTopics w ∧ setItemCalls w' = setItemCalls w.
Proof. by vm_compute. Qed.

End HomePageFacts.

(** ** The properties on the sample results

    The two conversions between strings and numbers are never reached on
    the sample data; they are instantiated by constants here. *)

#[local] Abbreviation extract0 :=
  (extractTopicsWithSources (λ _, NaN) (λ _, "")).
#[local] Abbreviation normalize0 := (normalize (λ _, NaN) (λ _, "")).

(** Side conditions on concrete data are settled by evaluation. *)
Ltac evaluate := first [lia | vm_compute; reflexivity].

Lemma sample_result_shape : RawResearchResult sample_result = true.
Proof. vm_compute. reflexivity. Qed.

Lemma sample_result_aiTopics : aiTopics sample_result = Ok (JArr sample_entries).
Proof. vm_compute. reflexivity. Qed.

Lemma extract_count_and_ids_witness :
  RawResearchResult sample_result = true ∧
  aiTopics sample_result = Ok (JArr sample_entries) ∧
  ∃ ts, extract0 sample_result = Ok ts ∧
        length ts = length sample_entries `min` 8 ∧
        id <$> ts = seq 0 (length sample_entries `min` 8) ∧
        (sample_entries = [] → ts = []).
Proof.
  split; [vm_compute; reflexivity|]. split; [vm_compute; reflexivity|].
  apply extract_count_and_ids; evaluate.
Defined.

Lemma normalize_scale_and_clamp_witness :
  normalize0 (lit 55) = Ok (JNum (clamp (divide (of_Z 55) (of_Z 100)))) ∧
  normalize0 (lit 7) = Ok (JNum (clamp (divide (of_Z 7) (of_Z 10)))) ∧
  normalize0 (lit (-3)) = Ok (lit 0) ∧
  (∃ ts t, extract0 sample_result = Ok ts ∧ ts !! 0 = Some t ∧
     normalize0 (lit 75) = Ok (relevanceScore t) ∧
     ∃ r : number, relevanceScore t = JNum r ∧
                   at_most (of_Z 0) r = true ∧ at_most r (of_Z 1) = true).
Proof.
  pose proof (normalize_scale_and_clamp (λ _, NaN) (λ _, ""))
    as (Hn & _ & _ & _ & _ & He).
  split; [apply (proj1 (Hn (lit 55) (of_Z 55) eq_refl)); reflexivity|].
  split; [apply (proj1 (proj2 (Hn (lit 7) (of_Z 7) eq_refl))); reflexivity|].
  split; [apply (proj1 (proj2 (proj2 (proj2 (proj2 (Hn (lit (-3)) (of_Z (-3)) eq_refl))))));
          reflexivity|].
  destruct (He sample_result sample_entries 0
              (JObj {[ "title" := JStr "Burnout"; "relevance_score" := lit 75 ]}))
    as (ts & t & E & Et & Hraw & Hb); [evaluate ..|].
  exists ts, t. do 3 (split; [assumption|]).
  apply (Hb (of_Z 75)); [reflexivity | discriminate].
Defined.

Lemma extract_total_witness :
  RawResearchResult sample_result = true ∧ ∃ ts, extract0 sample_result = Ok ts.
Proof.
  split; [vm_compute; reflexivity|].
  apply extract_total. vm_compute. reflexivity.
Defined.

(** The shape matters: the extractor raises on a body that is [null], on
    a [null] topic entry, and on a list of posts that is a number. *)
Example extract_null_throws : ∃ err, extract0 JNull = Throw err.
Proof. by eexists. Qed.

Example extract_null_entry_throws :
  ∃ err, extract0 (JObj {[ "ranked_topics" := JArr [JNull] ]}) = Throw err.
Proof. eexists. vm_compute. reflexivity. Qed.

Example extract_unconvertible_relevance_throws :
  RawResearchResult unconvertible_result = false ∧
  ∃ err, extract0 unconvertible_result = Throw err.
Proof. split; [vm_compute; reflexivity|]. eexists. vm_compute. reflexivity. Qed.

Example extract_number_posts_throws :
  ∃ err,
    extract0 (JObj {[ "ranked_topics" := JArr [JObj ∅];
                      "reddit_results" := JObj {[ "sample_posts" := lit 3 ]} ]})
    = Throw err.
Proof. eexists. vm_compute. reflexivity. Qed.

Lemma zero_relevance_score_gets_default_witness :
  RawResearchResult zero_score_result = true ∧
  aiTopics zero_score_result = Ok (JArr [JObj zero_with_score; JObj zero_alone]) ∧
  zero_alone !! "relevance_score" = Some (lit 0) ∧
  zero_alone !! "score" = None ∧
  ∃ ts t, extract0 zero_score_result = Ok ts ∧ ts !! 1 = Some t ∧
          relevanceScore t = JNum (decimal 8 1).
Proof.
  do 4 (split; [vm_compute; reflexivity|]).
  apply (zero_relevance_score_gets_default (λ _, NaN) (λ _, "")
           zero_score_result [JObj zero_with_score; JObj zero_alone] 1 zero_alone false);
    [evaluate .. | left; evaluate].
Defined.

(** C3 as stated fails: with [relevance_score: 0] and [score: 5] the
    present [relevance_score] is not used, and with [relevance_score: 0]
    alone the default is used although a field is present. *)
Lemma relevance_first_present_refuted :
  RawResearchResult zero_score_result = true ∧
  ∃ t0 t1, extract0 zero_score_result = Ok [t0; t1] ∧
    relevanceScore t0 = JNum (decimal 5 1) ∧
    normalize0 (relevance_as_specified zero_with_score) = Ok (lit 0) ∧
    normalize0 (relevance_as_specified zero_with_score) ≠ Ok (relevanceScore t0) ∧
    relevanceScore t1 = JNum (decimal 8 1) ∧
    normalize0 (relevance_as_specified zero_alone) = Ok (lit 0) ∧
    normalize0 (relevance_as_specified zero_alone) ≠ Ok (relevanceScore t1).
Proof.
  split; [vm_compute; reflexivity|].
  do 2 eexists. split; [vm_compute; reflexivity|].
  repeat split; try (vm_compute; reflexivity); vm_compute; discriminate.
Qed.

Lemma relevance_first_truthy_witness :
  RawResearchResult zero_score_result = true ∧
  aiTopics zero_score_result = Ok (JArr [JObj zero_with_score; JObj zero_alone]) ∧
  ∃ ts t, extract0 zero_score_result = Ok ts ∧ ts !! 0 = Some t ∧
          normalize0 (lit 5) = Ok (relevanceScore t).
Proof.
  do 2 (split; [vm_compute; reflexivity|]).
  destruct (relevance_first_truthy (λ _, NaN) (λ _, "")
              zero_score_result [JObj zero_with_score; JObj zero_alone] 0 zero_with_score)
    as (ts & t & E & Et & _ & H & _ & _); [evaluate ..|].
  exists ts, t. repeat (split; [assumption|]).
  apply H; vm_compute; reflexivity.
Defined.

(** C4 as stated fails: with an empty [title] and [topic: "AI"] the
    present [title] is not used, and with an empty [title] alone the label
    is used although a field is present. *)
Lemma title_first_present_refuted :
  RawResearchResult empty_title_result = true ∧
  ∃ t0 t1, extract0 empty_title_result = Ok [t0; t1] ∧
    title t0 = JStr "AI" ∧
    title_as_specified 0 empty_title_with_topic = JStr "" ∧
    title t0 ≠ title_as_specified 0 empty_title_with_topic ∧
    title t1 = JStr "Topic 2" ∧
    title_as_specified 1 empty_title_alone = JStr "" ∧
    title t1 ≠ title_as_specified 1 empty_title_alone.
Proof.
  split; [vm_compute; reflexivity|].
  do 2 eexists. split; [vm_compute; reflexivity|].
  repeat split; try (vm_compute; reflexivity); vm_compute; discriminate.
Qed.

Lemma title_first_truthy_witness :
  RawResearchResult sample_result = true ∧
  aiTopics sample_result = Ok (JArr sample_entries) ∧
  ∃ ts t, extract0 sample_result = Ok ts ∧ ts !! 2 = Some t ∧
          title t = JStr "Topic 3".
Proof.
  do 2 (split; [vm_compute; reflexivity|]).
  destruct (title_first_truthy (λ _, NaN) (λ _, "")
              sample_result sample_entries 2 ∅)
    as (ts & t & E & Et & _ & _ & _ & H); [evaluate ..|].
  exists ts, t. repeat (split; [assumption|]).
  apply H; reflexivity.
Defined.

Lemma sample_result_twitterPosts : twitterPosts sample_result = Ok (JArr sample_tweets).
Proof. vm_compute. reflexivity. Qed.

Lemma twitter_sources_disjoint_pairs_witness :
  RawResearchResult sample_result = true ∧
  aiTopics sample_result = Ok (JArr sample_entries) ∧
  twitterPosts sample_result = Ok (JArr sample_tweets) ∧
  ∃ ts t, extract0 sample_result = Ok ts ∧ ts !! 2 = Some t ∧
          twitter (sources t) = JArr [JStr "p4"; JStr "p5"].
Proof.
  do 3 (split; [vm_compute; reflexivity|]).
  destruct (twitter_sources_disjoint_pairs (λ _, NaN) (λ _, "")
              sample_result sample_entries sample_tweets 2 (JObj ∅))
    as (ts & t & E & Et & _ & _ & _ & _ & _ & H); [evaluate ..|].
  exists ts, t. repeat (split; [assumption|]).
  by apply (H (JStr "p0") (JStr "p1") (JStr "p2") (JStr "p3")).
Defined.

Lemma single_post_sources_witness :
  RawResearchResult sample_result = true ∧
  aiTopics sample_result = Ok (JArr sample_entries) ∧
  tiktokPosts sample_result = Ok (JArr sample_captions) ∧
  threadsPosts sample_result = Ok (JArr []) ∧
  redditPosts sample_result = Ok (JArr sample_titles) ∧
  ∃ ts t, extract0 sample_result = Ok ts ∧ ts !! 1 = Some t ∧
          tiktok (sources t) = JArr [JStr "q1"] ∧
          threads (sources t) = JArr [] ∧
          reddit (sources t) = JArr [JStr "r1"].
Proof.
  do 5 (split; [vm_compute; reflexivity|]).
  destruct (single_post_sources (λ _, NaN) (λ _, "")
              sample_result sample_entries sample_captions [] sample_titles 1
              (JObj {[ "topic" := JStr "Side hustles"; "score" := lit 8;
                       "reasoning" := JStr "Trending on every platform" ]}))
    as (ts & t & E & Et & Htk & Hth & Hrd & _); [evaluate ..|].
  exists ts, t. by repeat (split; [assumption|]).
Defined.

(** C7 as stated fails: three topics and three tiktok captions, and the
    three windows are the indices 0, 1 and 2, each used once. *)
Lemma single_post_windows_overlap_refuted :
  RawResearchResult sample_result = true ∧
  tiktokPosts sample_result = Ok (JArr sample_captions) ∧
  (∃ t0 t1 t2, extract0 sample_result = Ok [t0; t1; t2] ∧
     tiktok (sources t0) = JArr [JStr "q0"] ∧
     tiktok (sources t1) = JArr [JStr "q1"] ∧
     tiktok (sources t2) = JArr [JStr "q2"]) ∧
  single_window (length sample_captions) 0 = [0] ∧
  single_window (length sample_captions) 1 = [1] ∧
  single_window (length sample_captions) 2 = [2] ∧
  ¬ ∃ i j k, i < 3 ∧ j < 3 ∧ i ≠ j ∧
             k ∈ single_window (length sample_captions) i ∧
             k ∈ single_window (length sample_captions) j.
Proof.
  do 2 (split; [vm_compute; reflexivity|]).
  split; [do 3 eexists; repeat split; vm_compute; reflexivity|].
  do 3 (split; [reflexivity|]).
  intros (i & j & k & _ & _ & Hij & Hi & Hj).
  by apply (single_window_disjoint _ i j k Hij Hi).
Qed.

Lemma single_post_windows_disjoint_witness :
  RawResearchResult sample_result = true ∧
  aiTopics sample_result = Ok (JArr sample_entries) ∧
  tiktokPosts sample_result = Ok (JArr sample_captions) ∧
  threadsPosts sample_result = Ok (JArr []) ∧
  redditPosts sample_result = Ok (JArr sample_titles) ∧
  ∃ ts ti tj, extract0 sample_result = Ok ts ∧ ts !! 0 = Some ti ∧ ts !! 2 = Some tj ∧
    ∀ len k, k ∈ single_window len 0 → k ∉ single_window len 2.
Proof.
  do 5 (split; [vm_compute; reflexivity|]).
  destruct (single_post_windows_disjoint (λ _, NaN) (λ _, "")
              sample_result sample_entries sample_captions [] sample_titles 0 2
              (JObj {[ "title" := JStr "Burnout"; "relevance_score" := lit 75 ]})
              (JObj ∅))
    as (ts & ti & tj & E & Eti & Etj & _ & _ & H); [evaluate ..|].
  exists ts, ti, tj. by repeat (split; [assumption|]).
Defined.

Lemma research_failure_keeps_persisted_topics_witness :
  let w := step (λ _, NaN) (λ _, "") (λ _, "[]") (λ _, []) fresh
             (FetchRejected (TypeError "Failed to fetch")) in
  (∃ msg, error w = Some msg ∧ msg ≠ "") ∧
  isLoading w = false ∧
  podcastTopics w = podcastTopics fresh ∧
  setItemCalls w = setItemCalls fresh.
Proof.
  apply (proj1 (research_failure_keeps_persisted_topics
                  (λ _, NaN) (λ _, "") (λ _, "[]") (λ _, []))).
  left. by eexists.
Defined.

(** * More of [extractTopicsWithSources]

    What the extractor does on inputs of any shape. *)

Lemma get_total (v : JsVal) (k : string) :
  nullish v = false → ∃ x, get v k = Ok x.
Proof. destruct v; try done; by eexists. Qed.

Lemma get_chain_total (v : JsVal) (k1 k2 : string) :
  nullish v = false → ∃ x, get_chain v k1 k2 = Ok x.
Proof.
  intros [r Hr]%(get_total _ k1). unfold get_chain. rewrite Hr, bind_Ok.
  unfold get_opt. destruct (nullish r) eqn:Hn; [by eexists|].
  by apply get_total.
Qed.

Lemma or_else_total (a b : Result JsVal) :
  (∃ x, a = Ok x) → (∃ y, b = Ok y) → ∃ z, a ||| b = Ok z.
Proof.
  intros [x ->] [y ->]. rewrite or_else_Ok. destruct (ToBoolean x); by eexists.
Qed.

(** The four post selections never raise on a body that is not [null]. *)
Lemma posts_total (data : JsVal) :
  nullish data = false →
  ∃ tw tk th rd,
    twitterPosts data = Ok tw ∧ tiktokPosts data = Ok tk ∧
    threadsPosts data = Ok th ∧ redditPosts data = Ok rd.
Proof.
  intros H.
  destruct (or_else_total
              (get_chain data "twitter_results" "sample_posts"
               ||| get_chain data "twitter_results" "trending_topics") (Ok (JArr [])))
    as [tw Etw]; [apply or_else_total; by apply get_chain_total | by eexists |].
  destruct (or_else_total
              (get_chain data "tiktok_results" "sample_posts"
               ||| get_chain data "tiktok_results" "sample_captions") (Ok (JArr [])))
    as [tk Etk]; [apply or_else_total; by apply get_chain_total | by eexists |].
  destruct (or_else_total
              (get_chain data "threads_results" "sample_posts") (Ok (JArr [])))
    as [th Eth]; [by apply get_chain_total | by eexists |].
  destruct (or_else_total
              (get_chain data "reddit_results" "sample_posts"
               ||| get_chain data "reddit_results" "sample_titles") (Ok (JArr [])))
    as [rd Erd]; [apply or_else_total; by apply get_chain_total | by eexists |].
  by exists tw, tk, th, rd.
Qed.

Lemma or_else_truthy (a b : Result JsVal) (d v : JsVal) :
  ToBoolean d = true → a ||| b ||| Ok d = Ok v → ToBoolean v = true.
Proof.
  intros Hd. destruct a as [x|]; [|done]. rewrite or_else_Ok.
  destruct (ToBoolean x) eqn:Hx.
  - rewrite or_else_Ok, Hx. by intros [= <-].
  - destruct b as [y|]; [|done]. rewrite !or_else_Ok.
    destruct (ToBoolean y) eqn:Hy; by intros [= <-].
Qed.

Lemma or_else_truthy_or_default (a b : Result JsVal) (d v : JsVal) :
  a ||| b ||| Ok d = Ok v → ToBoolean v = true ∨ v = d.
Proof.
  destruct a as [x|]; [|done]. rewrite or_else_Ok.
  destruct (ToBoolean x) eqn:Hx.
  - rewrite or_else_Ok, Hx. intros [= <-]. by left.
  - destruct b as [y|]; [|done]. rewrite !or_else_Ok.
    destruct (ToBoolean y) eqn:Hy; intros [= <-]; first [by left | by right].
Qed.

Lemma slice_length_le (v w : JsVal) (start end_ : nat) :
  slice v start end_ = Ok w → length (posts_of w) ≤ end_ - start.
Proof.
  destruct v; try done; intros [= <-]; cbn; [lia|].
  apply Array_slice_length.
Qed.

Section ExtractorAnyInput.

Variable StringToNumber : string → number.
Variable NumberToString : number → string.

Abbreviation normalize' := (normalize StringToNumber NumberToString).
Abbreviation push_topic' := (push_topic StringToNumber NumberToString).
Abbreviation extract := (extractTopicsWithSources StringToNumber NumberToString).

Lemma push_topic_inv (tw tk th rd topic : JsVal) (index : nat) (ts ts' : list Topic) :
  push_topic' tw tk th rd topic index ts = Ok ts' →
  ∃ t, ts' = ts ++ [t] ∧ well_formed_at index t.
Proof.
  unfold push_topic. intros H.
  apply bind_Ok_inv in H as (raw & _ & H).
  apply bind_Ok_inv in H as (score & Hscore & H).
  apply bind_Ok_inv in H as (ti & Hti & H).
  apply bind_Ok_inv in H as (de & Hde & H).
  apply bind_Ok_inv in H as (stw & Htw & H).
  apply bind_Ok_inv in H as (stk & Htk & H).
  apply bind_Ok_inv in H as (sth & Hth & H).
  apply bind_Ok_inv in H as (srd & Hrd & H).
  injection H as <-. eexists. split; [done|].
  unfold well_formed_at. cbn [id title description relevanceScore sources
                               twitter tiktok threads reddit].
  split; [done|]. split; [eapply or_else_truthy; [|exact Hti]; reflexivity|].
  split; [eapply or_else_truthy_or_default; exact Hde|].
  split; [by eapply normalize_cases|].
  apply slice_length_le in Htw, Htk, Hth, Hrd. lia.
Qed.

Lemma forEach_from_inv (tw tk th rd : JsVal) (l : list JsVal) (index : nat)
    (ts ts' : list Topic) :
  forEach_from (push_topic' tw tk th rd) l index ts = Ok ts' →
  ∃ new, ts' = ts ++ new ∧ length new = length l ∧
         ∀ j t, new !! j = Some t → well_formed_at (index + j) t.
Proof.
  revert index ts. induction l as [|x l IH]; intros index ts; cbn [forEach_from].
  - intros [= <-]. exists []. by rewrite app_nil_r.
  - intros H. apply bind_Ok_inv in H as (s1 & H1 & H).
    apply push_topic_inv in H1 as (t & -> & Ht).
    apply IH in H as (new & -> & Hlen & Hnew).
    exists (t :: new). rewrite <- app_assoc. split; [done|].
    split; [cbn; lia|].
    intros [|j] t'; cbn.
    + intros [= <-]. by rewrite Nat.add_0_r.
    + intros Hj. replace (index + S j) with (index + 1 + j) by lia. by apply Hnew.
Qed.

(** When the extractor returns, it has found an array of AI topics. *)
Lemma extract_Ok_inv (data : JsVal) (ts : list Topic) :
  extract data = Ok ts →
  ∃ l tw tk th rd,
    aiTopics data = Ok (JArr l) ∧
    forEach_from (push_topic' tw tk th rd) (take 8 l) 0 [] = Ok ts.
Proof.
  unfold extractTopicsWithSources. intros H.
  apply bind_Ok_inv in H as (ai & Hai & H).
  apply bind_Ok_inv in H as (tw & _ & H).
  apply bind_Ok_inv in H as (tk & _ & H).
  apply bind_Ok_inv in H as (th & _ & H).
  apply bind_Ok_inv in H as (rd & _ & H).
  apply bind_Ok_inv in H as (first8 & Hs & H).
  destruct ai as [| | | |s|l|m]; try done.
  - injection Hs as <-. done.
  - rewrite slice_array in Hs. injection Hs as <-. cbn [drop] in H.
    by exists l, tw, tk, th, rd.
Qed.

(** Whatever the body is, a returned list has at most eight topics, as
    many as the selected array allows, numbered by position, each with a
    title that is not empty, a description that is a non-empty value or
    the empty string, a relevance that is [NaN] or lies in [0,1], and at
    most 2 + 1 + 1 + 1 posts. *)
Theorem extract_output_well_formed (data : JsVal) (ts : list Topic) :
  extract data = Ok ts →
  (∃ l, aiTopics data = Ok (JArr l) ∧ length ts = length l `min` 8) ∧
  length ts ≤ 8 ∧
  ∀ i t, ts !! i = Some t → well_formed_at i t.
Proof.
  intros (l & tw & tk & th & rd & Hl & H)%extract_Ok_inv.
  apply forEach_from_inv in H as (new & -> & Hlen & Hnew).
  rewrite length_take in Hlen. cbn [app].
  split; [exists l; split; [done | lia]|]. split; [lia|].
  intros i t Hi. by apply (Hnew i t).
Qed.

(** A body without AI topics gives the empty list, whatever else it
    holds: the candidates are only sliced inside the loop. *)
Theorem extract_without_topics (data : JsVal) :
  aiTopics data = Ok (JArr []) →
  extract data = Ok [].
Proof.
  intros Hl. assert (nullish data = false) as Hd by by destruct data.
  destruct (posts_total data Hd) as (tw & tk & th & rd & Etw & Etk & Eth & Erd).
  unfold extractTopicsWithSources.
  by rewrite Hl, Etw, Etk, Eth, Erd, !bind_Ok.
Qed.

Lemma forEach_from_throws (tw tk th rd : JsVal) (l : list JsVal) (i : nat) (e : JsVal)
    (index : nat) (ts : list Topic) :
  l !! i = Some e → nullish e = true →
  ∃ err, forEach_from (push_topic' tw tk th rd) l index ts = Throw err.
Proof.
  revert i index ts. induction l as [|x l IH]; intros i index ts; [done|].
  cbn [forEach_from]. destruct i as [|i]; cbn.
  - intros [= ->] He. destruct e; try done; by eexists.
  - intros Hi He.
    destruct (push_topic' tw tk th rd x index ts) as [s1|err]; [|by eexists].
    rewrite bind_Ok. by eapply IH.
Qed.

(** One [null] entry among the first eight makes the whole call raise:
    no partial list is returned. *)
Theorem extract_null_entry (data : JsVal) (l : list JsVal) (i : nat) (e : JsVal) :
  aiTopics data = Ok (JArr l) →
  i < 8 → l !! i = Some e → nullish e = true →
  ∃ err, extract data = Throw err.
Proof.
  intros Hl Hi He Hn. assert (nullish data = false) as Hd by by destruct data.
  destruct (posts_total data Hd) as (tw & tk & th & rd & Etw & Etk & Eth & Erd).
  unfold extractTopicsWithSources, forEach.
  rewrite Hl, Etw, Etk, Eth, Erd, !bind_Ok, slice_array, bind_Ok. cbn [drop].
  eapply forEach_from_throws; [|done]. by rewrite lookup_take_lt.
Qed.

Lemma slice_total (v : JsVal) (start end_ : nat) :
  (∃ w, slice v start end_ = Ok w) ↔ sliceable v = true.
Proof. split; [by intros [w H]; destruct v | by destruct v; try done; eexists]. Qed.

Lemma push_topic_total (tw tk th rd topic : JsVal) (index : nat) (ts : list Topic) :
  (∃ ts', push_topic' tw tk th rd topic index ts = Ok ts') ↔
  is_topic_entry topic = true ∧
  sliceable tw = true ∧ sliceable tk = true ∧ sliceable th = true ∧ sliceable rd = true.
Proof.
  unfold push_topic. split.
  - intros [ts' H].
    apply bind_Ok_inv in H as (raw & Hraw & H).
    apply bind_Ok_inv in H as (score & Hscore & H).
    apply bind_Ok_inv in H as (ti & _ & H).
    apply bind_Ok_inv in H as (de & _ & H).
    apply bind_Ok_inv in H as (stw & Htw & H).
    apply bind_Ok_inv in H as (stk & Htk & H).
    apply bind_Ok_inv in H as (sth & Hth & H).
    apply bind_Ok_inv in H as (srd & Hrd & H).
    assert (nullish topic = false) as Hn by by destruct topic.
    split.
    + unfold is_topic_entry. rewrite Hn. cbn [negb andb].
      rewrite or_else_fields in Hraw by done. injection Hraw as <-.
      apply (normalize_convertible StringToNumber NumberToString). by eexists.
    + repeat split; eapply slice_total; by eexists.
  - intros ([Hn Hc]%is_topic_entry_inv & Htw & Htk & Hth & Hrd).
    rewrite !or_else_fields, !bind_Ok by done.
    fold (raw_relevance (entry_fields topic)).
    rewrite (normalize_normalized StringToNumber NumberToString _ Hc), bind_Ok.
    apply (slice_total _ (index * 2) (index * 2 + 2)) in Htw as [stw ->].
    apply (slice_total _ index (index + 1)) in Htk as [stk ->].
    apply (slice_total _ index (index + 1)) in Hth as [sth ->].
    apply (slice_total _ index (index + 1)) in Hrd as [srd ->].
    by eexists.
Qed.

Lemma forEach_from_total (tw tk th rd : JsVal) (l : list JsVal) (index : nat)
    (ts : list Topic) :
  (∃ ts', forEach_from (push_topic' tw tk th rd) l index ts = Ok ts') ↔
  l = [] ∨
  (Forall (λ e, is_topic_entry e = true) l ∧
   sliceable tw = true ∧ sliceable tk = true ∧ sliceable th = true ∧ sliceable rd = true).
Proof.
  revert index ts. induction l as [|x l IH]; intros index ts; cbn [forEach_from].
  { split; [by left | by eexists]. }
  split.
  - intros [ts' H]. right. apply bind_Ok_inv in H as (s1 & H1 & H).
    assert (∃ t, push_topic' tw tk th rd x index ts = Ok t) as Hx by by eexists.
    apply push_topic_total in Hx as (Hn & Hs).
    split; [|done]. constructor; [done|].
    assert (∃ t, forEach_from (push_topic' tw tk th rd) l (index + 1) s1 = Ok t) as Hl
      by by eexists.
    apply IH in Hl as [->|[Hl _]]; [by constructor | done].
  - intros [?|[[Hx Hl]%Forall_cons Hs]]; [done|].
    destruct (proj2 (push_topic_total tw tk th rd x index ts)) as [s1 ->]; [done|].
    rewrite bind_Ok. apply IH. by right.
Qed.

(** When the extractor returns and when it raises: it returns exactly
    when the body is not [null], what it selects as AI topics is an array,
    and either the array is empty, or none of its first eight entries is
    [null], the raw relevance of each of them can be converted to a number
    (it holds no object with a [toString] key), and the four selected
    candidates are arrays or strings. *)
Theorem extract_returns_iff (data : JsVal) :
  (∃ ts, extract data = Ok ts) ↔
  ∃ l tw tk th rd,
    aiTopics data = Ok (JArr l) ∧
    twitterPosts data = Ok tw ∧ tiktokPosts data = Ok tk ∧
    threadsPosts data = Ok th ∧ redditPosts data = Ok rd ∧
    (take 8 l = [] ∨
     (Forall (λ e, is_topic_entry e = true) (take 8 l) ∧
      sliceable tw = true ∧ sliceable tk = true ∧
      sliceable th = true ∧ sliceable rd = true)).
Proof.
  split.
  - intros [ts H]. unfold extractTopicsWithSources in H.
    apply bind_Ok_inv in H as (ai & Hai & H).
    apply bind_Ok_inv in H as (tw & Htw & H).
    apply bind_Ok_inv in H as (tk & Htk & H).
    apply bind_Ok_inv in H as (th & Hth & H).
    apply bind_Ok_inv in H as (rd & Hrd & H).
    apply bind_Ok_inv in H as (first8 & Hs & H).
    destruct ai as [| | | |s|l|m]; try done.
    { injection Hs as <-. done. }
    rewrite slice_array, drop_0 in Hs. injection Hs as <-.
    exists l, tw, tk, th, rd. repeat (split; [done|]).
    apply (forEach_from_total tw tk th rd (take 8 l) 0 []). by eexists.
  - intros (l & tw & tk & th & rd & Hl & Htw & Htk & Hth & Hrd & H).
    unfold extractTopicsWithSources, forEach.
    rewrite Hl, Htw, Htk, Hth, Hrd, !bind_Ok, slice_array, bind_Ok, drop_0.
    by apply forEach_from_total.
Qed.

End ExtractorAnyInput.

(** ** Which keys the extractor looks at *)

Lemma get_chain_insert_ne (m : gmap string JsVal) (k k1 k2 : string) (v : JsVal) :
  k ≠ k1 → get_chain (JObj (<[k := v]> m)) k1 k2 = get_chain (JObj m) k1 k2.
Proof. intros Hk. unfold get_chain, get, field. by rewrite lookup_insert_ne. Qed.

Lemma aiTopics_ranked (m : gmap string JsVal) (l : list JsVal) :
  m !! "ranked_topics" = Some (JArr l) → aiTopics (JObj m) = Ok (JArr l).
Proof. intros H. unfold aiTopics, get. by rewrite H. Qed.

Lemma posts_insert_ne (m : gmap string JsVal) (k : string) (v : JsVal) :
  k ≠ "twitter_results" → k ≠ "tiktok_results" →
  k ≠ "threads_results" → k ≠ "reddit_results" →
  twitterPosts (JObj (<[k := v]> m)) = twitterPosts (JObj m) ∧
  tiktokPosts (JObj (<[k := v]> m)) = tiktokPosts (JObj m) ∧
  threadsPosts (JObj (<[k := v]> m)) = threadsPosts (JObj m) ∧
  redditPosts (JObj (<[k := v]> m)) = redditPosts (JObj m).
Proof.
  intros H1 H2 H3 H4. unfold twitterPosts, tiktokPosts, threadsPosts, redditPosts.
  by rewrite !get_chain_insert_ne.
Qed.

Section ExtractorKeys.

Variable StringToNumber : string → number.
Variable NumberToString : number → string.

Abbreviation extract := (extractTopicsWithSources StringToNumber NumberToString).

(** An array under [ranked_topics] always wins, the empty array too: what
    sits under [ai_topic_suggestions] is then never looked at. *)
Theorem ranked_topics_shadow_suggestions
    (m : gmap string JsVal) (l : list JsVal) (v : JsVal) :
  m !! "ranked_topics" = Some (JArr l) →
  extract (JObj (<["ai_topic_suggestions" := v]> m)) = extract (JObj m) ∧
  (l = [] → extract (JObj m) = Ok []).
Proof.
  intros H. split.
  - unfold extractTopicsWithSources.
    rewrite (aiTopics_ranked m l H).
    rewrite (aiTopics_ranked (<["ai_topic_suggestions" := v]> m) l)
      by by rewrite lookup_insert_ne.
    by destruct (posts_insert_ne m "ai_topic_suggestions" v) as (-> & -> & -> & ->).
  - intros ->. pose proof (aiTopics_ranked m [] H) as Hl.
    destruct (posts_total (JObj m) eq_refl) as (tw & tk & th & rd & Etw & Etk & Eth & Erd).
    unfold extractTopicsWithSources.
    by rewrite Hl, Etw, Etk, Eth, Erd, !bind_Ok.
Qed.

(** Entries after the eighth are never read: two lists of AI topics with
    the same first eight entries give the same result, exceptions
    included. *)
Theorem extract_first_eight_only (m : gmap string JsVal) (l l' : list JsVal) :
  take 8 l = take 8 l' →
  extract (JObj (<["ranked_topics" := JArr l]> m))
  = extract (JObj (<["ranked_topics" := JArr l']> m)).
Proof.
  intros H. unfold extractTopicsWithSources.
  rewrite (aiTopics_ranked (<["ranked_topics" := JArr l]> m) l)
    by apply lookup_insert_eq.
  rewrite (aiTopics_ranked (<["ranked_topics" := JArr l']> m) l')
    by apply lookup_insert_eq.
  destruct (posts_insert_ne m "ranked_topics" (JArr l)) as (-> & -> & -> & ->);
    [done ..|].
  destruct (posts_insert_ne m "ranked_topics" (JArr l')) as (-> & -> & -> & ->);
    [done ..|].
  destruct (posts_total (JObj m)) as (tw & tk & th & rd & -> & -> & -> & ->); [done|].
  rewrite !bind_Ok, !slice_array. cbn [Nat.sub]. by rewrite !drop_0, H.
Qed.

(** Without a truthy [ranked_topics], an array under
    [ai_topic_suggestions.topics] is used just as if it stood under
    [ranked_topics]. *)
Theorem suggestions_stand_in
    (m sug : gmap string JsVal) (l : list JsVal) :
  ToBoolean (field m "ranked_topics") = false →
  m !! "ai_topic_suggestions" = Some (JObj sug) →
  sug !! "topics" = Some (JArr l) →
  extract (JObj m) = extract (JObj (<["ranked_topics" := JArr l]> m)).
Proof.
  intros Hr Hs Ht. unfold extractTopicsWithSources.
  rewrite (aiTopics_ranked (<["ranked_topics" := JArr l]> m) l)
    by apply lookup_insert_eq.
  destruct (posts_insert_ne m "ranked_topics" (JArr l)) as (-> & -> & -> & ->);
    [done ..|].
  assert (aiTopics (JObj m) = Ok (JArr l)) as ->; [|done].
  unfold aiTopics, get_chain. rewrite !get_object, or_else_Ok, Hr, bind_Ok.
  unfold field at 1. rewrite Hs. cbn. unfold field. by rewrite Ht.
Qed.

End ExtractorKeys.

(** ** The sources of all topics together *)

Lemma join_windows (posts : list JsVal) (k n : nat) :
  mjoin ((λ i, take k (drop (k * i) posts)) <$> seq 0 n) = take (k * n) posts.
Proof.
  induction n as [|n IH]; [by rewrite Nat.mul_0_r, take_0|].
  rewrite seq_S, fmap_app, join_app, IH. cbn. rewrite app_nil_r.
  replace (k * S n) with (k * n + k) by lia.
  by rewrite take_take_drop.
Qed.

Section SourcesTogether.

Variable StringToNumber : string → number.
Variable NumberToString : number → string.

Abbreviation extract := (extractTopicsWithSources StringToNumber NumberToString).
Abbreviation topics_of' := (topics_of StringToNumber NumberToString).

Lemma topics_of_sources (tw tk th rd l : list JsVal) (k : nat)
    (slot : Sources → JsVal) (posts : list JsVal) :
  (∀ i e, slot (sources (topic_of StringToNumber NumberToString tw tk th rd i e))
          = JArr (take k (drop (k * i) posts))) →
  mjoin ((λ t, posts_of (slot (sources t))) <$> topics_of' tw tk th rd l)
  = take (k * (length l `min` 8)) posts.
Proof.
  intros Hslot. unfold topics_of. rewrite fmap_imap.
  transitivity (mjoin (imap (λ i _, take k (drop (k * i) posts)) (take 8 l))).
  { f_equal. apply imap_ext. intros i e _. unfold compose. by rewrite Hslot. }
  rewrite imap_seq_0, join_windows, length_take. do 2 f_equal. lia.
Qed.

(** Read in the order of the topics, the twitter sources are the first
    2n candidates and the sources of each other platform the first n,
    where n is the number of topics: no candidate is shown twice, none is
    skipped, and those after the windows are never shown. *)
Theorem sources_are_candidate_prefixes (data : JsVal) (tw tk th rd : list JsVal) :
  RawResearchResult data = true →
  twitterPosts data = Ok (JArr tw) →
  tiktokPosts data = Ok (JArr tk) →
  threadsPosts data = Ok (JArr th) →
  redditPosts data = Ok (JArr rd) →
  ∃ ts, extract data = Ok ts ∧
    mjoin ((λ t, posts_of (twitter (sources t))) <$> ts) = take (2 * length ts) tw ∧
    mjoin ((λ t, posts_of (tiktok (sources t))) <$> ts) = take (length ts) tk ∧
    mjoin ((λ t, posts_of (threads (sources t))) <$> ts) = take (length ts) th ∧
    mjoin ((λ t, posts_of (reddit (sources t))) <$> ts) = take (length ts) rd.
Proof.
  intros H Htw Htk Hth Hrd.
  destruct (extract_shape StringToNumber NumberToString data H)
    as (l & tw' & tk' & th' & rd' & _ & _ & Etw & Etk & Eth & Erd & E).
  assert (tw' = tw) as -> by congruence. assert (tk' = tk) as -> by congruence.
  assert (th' = th) as -> by congruence. assert (rd' = rd) as -> by congruence.
  exists (topics_of' tw tk th rd l). split; [done|].
  rewrite topics_of_length.
  assert (∀ posts i, Array_slice posts i (i + 1) = take 1 (drop (1 * i) posts)) as H1.
  { intros posts i. rewrite Array_slice_take_drop.
    by replace (i + 1 - i) with 1 by lia; rewrite Nat.mul_1_l. }
  assert (∀ posts i, Array_slice posts (i * 2) (i * 2 + 2) = take 2 (drop (2 * i) posts))
    as H2.
  { intros posts i. rewrite Array_slice_take_drop.
    by replace (i * 2 + 2 - i * 2) with 2 by lia; replace (i * 2) with (2 * i) by lia. }
  split; [apply (topics_of_sources tw tk th rd l 2 twitter tw);
          intros; cbn; by rewrite H2|].
  rewrite <- (Nat.mul_1_l (length l `min` 8)).
  split; [apply (topics_of_sources tw tk th rd l 1 tiktok tk); intros; cbn; by rewrite H1|].
  split; [apply (topics_of_sources tw tk th rd l 1 threads th); intros; cbn; by rewrite H1|].
  apply (topics_of_sources tw tk th rd l 1 reddit rd); intros; cbn; by rewrite H1.
Qed.

End SourcesTogether.

(** * [EpisodeModal]: the link to the generated document *)

Lemma append_cons (x : Ascii.ascii) (a b : string) :
  String x a +:+ b = String x (a +:+ b).
Proof. reflexivity. Qed.

Lemma append_nil_l (b : string) : EmptyString +:+ b = b.
Proof. reflexivity. Qed.

Lemma append_assoc (a b c : string) : (a +:+ b) +:+ c = a +:+ (b +:+ c).
Proof.
  induction a as [|x a IH]; [done|]. by rewrite !append_cons, IH.
Qed.

Lemma append_nil_r (a : string) : a +:+ EmptyString = a.
Proof. induction a as [|x a IH]; [done|]. by rewrite append_cons, IH. Qed.

Lemma occurs_app (c : Ascii.ascii) (a b : string) :
  occurs c (a +:+ b) = occurs c a || occurs c b.
Proof.
  induction a as [|x a IH]; [done|]. rewrite append_cons. cbn [occurs].
  rewrite IH. by destruct (Ascii.eqb x c).
Qed.

(** [split] cuts at every separator and nowhere else: gluing the pieces
    with the separator gives the string back, and no piece holds one. *)
Lemma String_split_spec (sep : Ascii.ascii) (s : string) :
  ∃ init f,
    String_split sep s = init ++ [f] ∧
    s = join_pieces sep init +:+ f ∧
    Forall (λ piece, occurs sep piece = false) (init ++ [f]).
Proof.
  induction s as [|c s (init & f & Hs & Hj & Hno)]; cbn [String_split].
  - exists [], EmptyString. repeat split; by repeat constructor.
  - destruct (Ascii.eqb c sep) eqn:Hc.
    + apply Ascii.eqb_eq in Hc as ->.
      exists (EmptyString :: init), f. rewrite Hs. repeat split.
      * cbn [join_pieces]. by rewrite append_nil_l, append_cons, <- Hj.
      * by constructor.
    + rewrite Hs. destruct init as [|p init]; cbn [app].
      * exists [], (String c f). cbn [join_pieces] in *.
        rewrite append_nil_l in *. subst s. repeat split.
        constructor; [|done]. cbn [occurs]. rewrite Hc. by apply Forall_inv in Hno.
      * exists (String c p :: init), f. repeat split.
        -- cbn [join_pieces] in *. by rewrite !append_cons, Hj.
        -- apply Forall_cons in Hno as [Hp Hrest]. constructor; [|done].
           cbn [occurs]. by rewrite Hc.
Qed.

Lemma join_pieces_ends (sep : Ascii.ascii) (init : list string) :
  init = [] ∨ ∃ d, join_pieces sep init = d +:+ String sep EmptyString.
Proof.
  induction init as [|p init IH]; [by left|]. right. cbn [join_pieces].
  destruct IH as [->|[d Hd]].
  - by exists p.
  - exists (p +:+ String sep d). by rewrite Hd, append_assoc.
Qed.

(** The last piece of a split: the part of the string after the last
    separator. *)
Lemma String_split_last (sep : Ascii.ascii) (s : string) :
  ∃ dir f,
    last (String_split sep s) = Some f ∧
    s = dir +:+ f ∧
    occurs sep f = false ∧
    (dir = EmptyString ∨ ∃ d, dir = d +:+ String sep EmptyString).
Proof.
  destruct (String_split_spec sep s) as (init & f & Hs & Hj & Hno).
  exists (join_pieces sep init), f. rewrite Hs, last_snoc.
  split; [done|]. split; [done|]. split.
  - apply Forall_app in Hno as [_ Hf]. by apply Forall_inv in Hf.
  - destruct (join_pieces_ends sep init) as [->|?]; [by left | by right].
Qed.

Section EpisodeModalFacts.

Variable API_URL : string.

(** The link of the download button.  It is absent when [pdf_report] is
    missing or empty, the modal raises when [pdf_report] is a number, a
    boolean, an array or an object, and for a path the link is
    [API_URL/output/filename] where [filename] is what follows the last
    separator of the path, slash or backslash: it holds no separator, so
    the link never leaves [/output/]. *)
Theorem getPdfUrl_spec (episodeData pdf_report : JsVal) :
  get_opt episodeData "pdf_report" = Ok pdf_report →
  (ToBoolean pdf_report = false → getPdfUrl API_URL episodeData = Ok JNull) ∧
  (ToBoolean pdf_report = true → (∀ path, pdf_report ≠ JStr path) →
     ∃ err, getPdfUrl API_URL episodeData = Throw err) ∧
  (∀ path, pdf_report = JStr path → path ≠ EmptyString →
     ∃ dir filename,
       getPdfUrl API_URL episodeData
         = Ok (JStr (API_URL +:+ "/output/" +:+ filename)) ∧
       path = dir +:+ filename ∧
       occurs slash filename = false ∧
       occurs backslash filename = false ∧
       (dir = EmptyString ∨ ends_with_separator dir)).
Proof.
  intros Hp. unfold getPdfUrl. rewrite Hp, bind_Ok. split; [|split].
  - by intros ->.
  - intros -> Hns. cbn [negb]. destruct pdf_report; try done; try by eexists.
    by destruct (Hns s).
  - intros path -> Hne.
    assert (ToBoolean (JStr path) = true) as ->.
    { cbn. by destruct path. }
    cbn [negb split]. rewrite bind_Ok.
    destruct (String_split_last slash path) as (d1 & piece & -> & Hpath & Hno1 & Hd1).
    destruct (String_split_last backslash piece) as (d2 & f & -> & Hpiece & Hno2 & Hd2).
    exists (d1 +:+ d2), f. cbn [default]. split; [done|].
    split; [by rewrite append_assoc, <- Hpiece|].
    split; [|split; [done|]].
    + rewrite Hpiece, occurs_app in Hno1. by apply orb_false_iff in Hno1 as [_ ?].
    + destruct Hd2 as [->|[d Hd]].
      * rewrite append_nil_r. destruct Hd1 as [->|[d Hd]]; [by left|].
        right. exists d, slash. by split; [|left].
      * right. exists (d1 +:+ d), backslash. split; [|by right].
        by rewrite Hd, append_assoc.
Qed.

End EpisodeModalFacts.

(** * [HomePage]: the episode draft *)

Lemma episode_answers (s : Episode) (es : list EpisodeEvent) :
  forallb is_answer es = true →
  selectedTopic (episode_run s es) = selectedTopic s ∧
  (es = [] ∨
   ∃ es0 e, es = es0 ++ [e] ∧
            episodeLoading (episode_run s es) = false ∧
            episodeData (episode_run s es) = answer_data e).
Proof.
  induction es as [|e es IH] using rev_ind; [by split; [|left]|].
  rewrite forallb_app. intros [Hes He]%andb_true_iff.
  unfold episode_run in *. rewrite foldl_app. cbn [foldl].
  destruct (IH Hes) as [Hsel _]. cbn in He. split.
  - destruct e; try done; cbn; done.
  - right. exists es, e. split; [done|]. by destruct e.
Qed.

(** A draft opens the modal on its topic, loading and without data, whatever
    was shown before; the answers that arrive afterwards never change the
    topic, and the last of them is what the modal shows, whichever request
    it answers. *)
Theorem draft_then_answers (s : Episode) (topic : Topic) (es : list EpisodeEvent) :
  forallb is_answer es = true →
  selectedTopic (episode_run s (DraftEpisode topic :: es)) = Some topic ∧
  showsEpisodeModal (episode_run s (DraftEpisode topic :: es)) = true ∧
  (es = [] →
     episodeLoading (episode_run s (DraftEpisode topic :: es)) = true ∧
     episodeData (episode_run s (DraftEpisode topic :: es)) = JNull) ∧
  (∀ es0 e, es = es0 ++ [e] →
     episodeLoading (episode_run s (DraftEpisode topic :: es)) = false ∧
     episodeData (episode_run s (DraftEpisode topic :: es)) = answer_data e).
Proof.
  intros Hes. change (episode_run s (DraftEpisode topic :: es))
    with (episode_run (handleDraftEpisode topic s) es).
  destruct (episode_answers (handleDraftEpisode topic s) es Hes) as [Hsel Hlast].
  split; [done|]. split; [unfold showsEpisodeModal; by rewrite Hsel|]. split.
  - by intros ->.
  - intros es0 e ->. destruct Hlast as [Hnil|(es1 & e1 & Heq & Hl & Hd)].
    + by destruct es0.
    + apply app_inj_tail in Heq as [-> ->]. done.
Qed.

(** Closing hides the modal, and an answer that arrives later does not
    bring it back. *)
Theorem close_then_answers (s : Episode) (es : list EpisodeEvent) :
  forallb is_answer es = true →
  showsEpisodeModal (episode_run s (CloseEpisodeModal :: es)) = false.
Proof.
  intros Hes. change (episode_run s (CloseEpisodeModal :: es))
    with (episode_run (closeEpisodeModal s) es).
  destruct (episode_answers (closeEpisodeModal s) es Hes) as [Hsel _].
  unfold showsEpisodeModal. by rewrite Hsel.
Qed.

Section EpisodeErrorView.

Variable API_URL : string.

(** After a failed draft the modal gets [{ error: err.message }]: the
    error panel shows the message when it is not empty, and there is
    neither content nor a download link.  Unlike [generateIdeas], the
    handler has no message of its own for an empty one. *)
Theorem failed_draft_view (s : Episode) (err : JsError) :
  let s' := episode_step s (EpisodeRejected err) in
  episodeLoading s' = false ∧
  episodeError (episodeData s') = Ok (JStr (message err)) ∧
  (ToBoolean (JStr (message err)) = true ↔ message err ≠ EmptyString) ∧
  hasContent (episodeData s') = Ok JUndef ∧
  getPdfUrl API_URL (episodeData s') = Ok JNull.
Proof.
  cbn [episode_step onEpisodeError episodeData episodeLoading].
  split; [done|]. split; [by vm_compute|].
  split; [cbn; by destruct (message err)|].
  split; by vm_compute.
Qed.

End EpisodeErrorView.

(** * [HomePage]: what is on the page *)

Section HomePageViews.

Variable StringToNumber : string → number.
Variable NumberToString : number → string.
Variable JSON_stringify : list Topic → string.
Variable JSON_parse : string → list Topic.

Abbreviation extract := (extractTopicsWithSources StringToNumber NumberToString).
Abbreviation saveTopics' := (saveTopics JSON_stringify).
Abbreviation step' :=
  (step StringToNumber NumberToString JSON_stringify JSON_parse).
Abbreviation run' :=
  (run StringToNumber NumberToString JSON_stringify JSON_parse).

Lemma saveTopics_state (w : World) :
  isLoading (saveTopics' w) = isLoading w ∧
  topics (saveTopics' w) = topics w ∧
  error (saveTopics' w) = error w.
Proof. unfold saveTopics. by destruct (0 <? length (topics w)). Qed.

Lemma one_of_two (ts : list Topic) :
  Nat.b2n ((length ts =? 0) && negb false) + Nat.b2n false + Nat.b2n (0 <? length ts) = 1.
Proof. by destruct ts. Qed.

(** After every event the page shows exactly one of the hero, the spinner
    and the grid of topics; while the spinner is shown there is no topic
    and no error panel. *)
Theorem one_main_view (w : World) (e : Event) :
  Nat.b2n (showsHero (step' w e)) + Nat.b2n (showsLoading (step' w e))
    + Nat.b2n (showsTopics (step' w e)) = 1 ∧
  (showsLoading (step' w e) = true →
     topics (step' w e) = [] ∧ showsError (step' w e) = false).
Proof.
  unfold showsHero, showsLoading, showsTopics, showsError.
  destruct e as [| |data|err]; cbn [step].
  - unfold mount. destruct (saveTopics_state
      {| isLoading := false;
         topics := match podcastTopics w with
                   | Some s => if ToBoolean (JStr s) then JSON_parse s else []
                   | None => []
                   end;
         error := None;
         podcastTopics := podcastTopics w;
         setItemCalls := setItemCalls w |}) as (-> & -> & ->).
    cbn [isLoading topics error]. split; [apply one_of_two | done].
  - unfold generateIdeas. by rewrite saveTopics_empty.
  - unfold onData. destruct (extract data) as [ts|err].
    + destruct (saveTopics_state
        {| isLoading := false; topics := ts; error := error w;
           podcastTopics := podcastTopics w;
           setItemCalls := setItemCalls w |}) as (-> & -> & ->).
      cbn [isLoading topics error]. split; [apply one_of_two | done].
    + cbn [onError isLoading topics error]. split; [apply one_of_two | done].
  - cbn [onError isLoading topics error]. split; [apply one_of_two | done].
Qed.


End HomePageViews.

(** * [TopicCard] *)

Lemma falsy_primitive (v : JsVal) :
  ToBoolean v = false → valid_child v = true ∧ convertible v = true.
Proof. by destruct v. Qed.

(** React accepts a child exactly when it holds no object. *)
Lemma React_child_valid (v : JsVal) :
  React_child v = Ok () ↔ valid_child v = true.
Proof.
  induction v as [v Hv|l IH] using JsVal_array_ind.
  - destruct v as [| | | | |l|m]; try done. by destruct (Hv l).
  - induction IH as [|x l Hx _ IHl]; [done|].
    change (React_child (JArr (x :: l)))
      with (_ ← React_child x; React_child (JArr l)).
    cbn [valid_child forallb].
    change (forallb valid_child l) with (valid_child (JArr l)).
    rewrite andb_true_iff, <- Hx, <- IHl.
    destruct (React_child x) as [[]|err]; [|split; [done | by intros []]].
    rewrite bind_Ok. split; [done | by intros []].
Qed.

Lemma React_child_total (v : JsVal) :
  (∃ u, React_child v = Ok u) ↔ valid_child v = true.
Proof.
  rewrite <- React_child_valid. split; [by intros [[] ?] | by eexists].
Qed.

Lemma map_Result_total {A B : Type} (f : A → Result B) (l : list A) :
  (∃ ys, map_Result f l = Ok ys) ↔ Forall (λ x, ∃ y, f x = Ok y) l.
Proof.
  induction l as [|x l IH]; cbn [map_Result].
  - split; [by constructor | by eexists].
  - split.
    + intros [ys H]. apply bind_Ok_inv in H as (y & Hy & H).
      apply bind_Ok_inv in H as (ys' & Hys & _).
      constructor; [by eexists | apply IH; by eexists].
    + intros [[y Hy] [ys Hys]%IH]%Forall_cons. rewrite Hy, Hys. by eexists.
Qed.

Lemma some_Result_existsb (f : JsVal → Result bool) (g : JsVal → bool) (l : list JsVal) :
  Forall (λ x, f x = Ok (g x)) l → some_Result f l = Ok (existsb g l).
Proof.
  induction 1 as [|x l Hx _ IH]; [done|]. cbn [some_Result existsb].
  rewrite Hx, bind_Ok. by destruct (g x).
Qed.

(** The double of an integer is never [NaN], and the smaller of it and
    100 is again the double of an integer that is not above 100. *)
Lemma SFcompare_numbers (x y : number) :
  x ≠ NaN → y ≠ NaN → ∃ c, SFcompare x y = Some c.
Proof.
  destruct x as [[]|[]| |[] mx ex], y as [[]|[]| |[] my ey]; try done; by eexists.
Qed.

Lemma min_number_100 (n : Z) :
  (0 ≤ n)%Z →
  ∃ n' : Z, min_number (of_Z n) (of_Z 100) = of_Z n' ∧ (0 ≤ n')%Z ∧
            at_most (of_Z n') (of_Z 100) = true.
Proof.
  intros Hn. pose proof (of_Z_sign n Hn) as Hs.
  destruct (SFcompare_numbers (of_Z n) (of_Z 100)) as [c Hc];
    [by destruct (of_Z n) | done |].
  unfold min_number. rewrite Hc.
  destruct c; [exists n | exists n | by exists 100%Z];
    (split; [done|]; split; [done|]); unfold at_most, SFleb; by rewrite Hc.
Qed.

Section TopicCardFacts.

Variable StringToNumber : string → number.
Variable NumberToString : number → string.

Abbreviation ToNumber' := (ToNumber StringToNumber NumberToString).
Abbreviation normalize' := (normalize StringToNumber NumberToString).
Abbreviation extract := (extractTopicsWithSources StringToNumber NumberToString).
Abbreviation badge' := (badge StringToNumber NumberToString).
Abbreviation hasSources' := (hasSources StringToNumber NumberToString).
Abbreviation has_posts' := (has_posts StringToNumber NumberToString).
Abbreviation renderPost' := (renderPost NumberToString).
Abbreviation renderPlatform' := (renderPlatform NumberToString).
Abbreviation renderSources' := (renderSources NumberToString).

Lemma React_attribute_total (v : JsVal) :
  (∃ u, React_attribute NumberToString v = Ok u) ↔ convertible v = true.
Proof.
  rewrite <- (ToString_convertible NumberToString). unfold React_attribute. split.
  - intros [u (s & Hs & _)%bind_Ok_inv]. by eexists.
  - intros [s ->]. by eexists.
Qed.

(** The element of one post, once its three constants are known. *)
Lemma post_element (postText postUrl postAuthor : JsVal) :
  (∃ view,
     (_ ← React_child postText;
      _ ← (if ToBoolean postAuthor then React_child postAuthor else Ok ());
      _ ← (if ToBoolean postUrl then React_attribute NumberToString postUrl else Ok ());
      Ok {| postText := postText; postUrl := postUrl; postAuthor := postAuthor |})
     = Ok view)
  ↔ valid_child postText && valid_child postAuthor && convertible postUrl = true.
Proof.
  rewrite !andb_true_iff, <- React_child_total, <- React_attribute_total.
  split.
  - intros (view & H).
    apply bind_Ok_inv in H as (u1 & H1 & H).
    apply bind_Ok_inv in H as (u2 & H2 & H).
    apply bind_Ok_inv in H as (u3 & H3 & H).
    split; [split; [by eexists|]|].
    + destruct (ToBoolean postAuthor) eqn:Ha;
        [apply React_child_total; by eexists | by apply falsy_primitive].
    + destruct (ToBoolean postUrl) eqn:Hu; [by eexists|].
      apply React_attribute_total. by apply falsy_primitive.
  - intros [[[[] ->] Ha] [[] Hu]]. rewrite bind_Ok.
    assert ((if ToBoolean postAuthor then React_child postAuthor else Ok ()) = Ok ())
      as ->.
    { destruct (ToBoolean postAuthor); [by apply React_child_valid | done]. }
    rewrite bind_Ok. destruct (ToBoolean postUrl); rewrite ?Hu; by eexists.
Qed.

Lemma renderPost_total (post : JsVal) :
  (∃ view, renderPost' post = Ok view) ↔ renderable post = true.
Proof.
  destruct post as [| | | | | |m]; try (split; [done | by eexists]);
    try (split; [by intros [] | done]).
  unfold renderPost.
  change (String.eqb (typeof (JObj m)) "string") with false.
  change (String.eqb (typeof (JObj m)) "object") with true. cbv iota.
  rewrite (or_else_fields (JObj m) "text" "title" (JStr "")) by done.
  rewrite !get_object, !bind_Ok. apply post_element.
Qed.

Lemma renderPlatform_cons (p : JsVal) (l : list JsVal) :
  renderPlatform' (JArr (p :: l))
  = (views ← map_Result renderPost' (p :: l); Ok (Some views)).
Proof.
  unfold renderPlatform. cbn [js_length].
  by rewrite (is_zero_of_nat (length (p :: l))).
Qed.

Lemma renderPlatform_Ok_posts (l : list JsVal) (views : option (list PostView)) :
  renderPlatform' (JArr l) = Ok views → Forall (λ post, renderable post = true) l.
Proof.
  destruct l as [|p l]; [by constructor|]. rewrite renderPlatform_cons. intros H.
  apply bind_Ok_inv in H as (vs & Hvs & _).
  assert (∃ ys, map_Result renderPost' (p :: l) = Ok ys) as Hex by by eexists.
  apply map_Result_total in Hex.
  eapply Forall_impl; [exact Hex|]. intros post. apply renderPost_total.
Qed.

(** The list of one platform is drawn without an exception exactly when
    each of its posts can be shown: none is [null], the text and the
    author of a post that is an object hold no object (React refuses an
    object as a child), and its link can be written as a string. *)
Theorem renderPlatform_total (l : list JsVal) :
  (∃ views, renderPlatform' (JArr l) = Ok views)
  ↔ Forall (λ post, renderable post = true) l.
Proof.
  split; [intros [views H]; by eapply renderPlatform_Ok_posts|].
  destruct l as [|p l]; [by eexists|]. rewrite renderPlatform_cons. intros Hl.
  assert (Forall (λ x, ∃ y, renderPost' x = Ok y) (p :: l)) as Hex.
  { eapply Forall_impl; [exact Hl|]. intros post. apply renderPost_total. }
  apply map_Result_total in Hex as [ys ->]. by eexists.
Qed.

Lemma badge_falsy (t : Topic) :
  ToBoolean (relevanceScore t) = false → badge' t = Ok (lit 80).
Proof. intros H. unfold badge, js_or. rewrite H. by vm_compute. Qed.

(** The rounded product of a number that is not negative is the double
    of an integer, capped at 100. *)
Lemma round_min_100 (y : number) :
  sign_of y = Some false →
  ∃ n : Z, min_number (round_number y) (of_Z 100) = of_Z n ∧ (0 ≤ n)%Z ∧
           at_most (of_Z n) (of_Z 100) = true.
Proof.
  destruct y as [[]|[]| |[] m e]; try done; intros _.
  - by exists 0%Z.
  - by exists 100%Z.
  - unfold round_number. destruct (Z.leb_spec 0 e) as [He|He].
    + exists 100%Z. split; [|done]. unfold min_number.
      change (of_Z 100) with (S754_finite false 7036874417766400 (-46)).
      cbn [SFcompare].
      by destruct (Z.compare_spec e (-46)); [lia | lia |].
    + cbn [cond_Zopp].
      assert (0 ≤ (Z.pos m + 2 ^ (- e - 1)) / 2 ^ (- e))%Z as Hn.
      { apply Z.div_pos; [|apply Z.pow_pos_nonneg; lia].
        pose proof (Z.pow_pos_nonneg 2 (- e - 1)). lia. }
      destruct ((Z.pos m + 2 ^ (- e - 1)) / 2 ^ (- e))%Z as [|p|p] eqn:E;
        [by exists 0%Z | by apply min_number_100 | lia].
Qed.

Lemma badge_unit (t : Topic) (r : number) :
  relevanceScore t = JNum r →
  less (of_Z 0) r = true → at_most r (of_Z 1) = true →
  ∃ n : Z, badge' t = Ok (lit n) ∧ (0 ≤ n)%Z ∧ at_most (of_Z n) (of_Z 100) = true.
Proof.
  intros Hr H0 H1. destruct r as [[]|[]| |[] m e]; try done.
  unfold badge, js_or, times, Math_round, Math_min. rewrite Hr.
  cbn [ToBoolean ToNumber lit]. rewrite !bind_Ok.
  destruct (round_min_100 (multiply (S754_finite false m e) (of_Z 100)))
    as (n & Hn & Hpos & Hle).
  { by eapply (SFmul_sign _ _ false false). }
  exists n. split; [|done]. unfold lit. rewrite <- Hn. reflexivity.
Qed.


Lemma has_posts_array (l : list JsVal) :
  has_posts' (JArr l) = Ok (negb (length l =? 0)).
Proof.
  unfold has_posts, gt. cbn [ToBoolean js_length ToNumber lit]. rewrite bind_Ok.
  by rewrite less_zero_of_nat.
Qed.

Lemma Array_slice_empty (posts : list JsVal) (start len : nat) :
  0 < len →
  (length (Array_slice posts start (start + len)) =? 0) = negb (start <? length posts).
Proof.
  intros Hlen. rewrite Array_slice_take_drop, length_take, length_drop.
  destruct (Nat.ltb_spec start (length posts)); cbn [negb];
    [apply Nat.eqb_neq | apply Nat.eqb_eq]; lia.
Qed.

Lemma hasSources_topic_of (tw tk th rd : list JsVal) (i : nat) (m : gmap string JsVal) :
  hasSources' (topic_of StringToNumber NumberToString tw tk th rd i m)
  = Ok ((i * 2 <? length tw) || (i <? length tk) || (i <? length th)
        || (i <? length rd)).
Proof.
  unfold hasSources, source_slots, topic_of.
  cbn [sources twitter tiktok threads reddit].
  rewrite (some_Result_existsb _ (λ v, negb (length (posts_of v) =? 0)))
    by (repeat constructor; apply has_posts_array).
  cbn [existsb posts_of].
  rewrite !(Array_slice_empty _ _ 1), (Array_slice_empty tw (i * 2) 2) by lia.
  by rewrite !negb_involutive, orb_false_r, !orb_assoc.
Qed.

(** The sources toggle of the card of topic i is there exactly when some
    platform has a candidate in the window of the topic. *)
Theorem hasSources_of_extracted
    (data : JsVal) (l tw tk th rd : list JsVal) (i : nat) (e : JsVal) :
  RawResearchResult data = true →
  aiTopics data = Ok (JArr l) →
  twitterPosts data = Ok (JArr tw) →
  tiktokPosts data = Ok (JArr tk) →
  threadsPosts data = Ok (JArr th) →
  redditPosts data = Ok (JArr rd) →
  i < 8 → l !! i = Some e →
  ∃ ts t shown, extract data = Ok ts ∧ ts !! i = Some t ∧
    hasSources' t = Ok shown ∧
    (shown = true ↔
       2 * i < length tw ∨ i < length tk ∨ i < length th ∨ i < length rd).
Proof.
  intros H Hl Htw Htk Hth Hrd Hi He.
  destruct (extract_topic_at StringToNumber NumberToString data l i _ H Hl Hi He)
    as (ts & tw' & tk' & th' & rd' & Etw & Etk & Eth & Erd & E & Et & _).
  assert (tw' = tw) as -> by congruence. assert (tk' = tk) as -> by congruence.
  assert (th' = th) as -> by congruence. assert (rd' = rd) as -> by congruence.
  eexists _, _, _. split; [done|]. split; [done|].
  split; [apply hasSources_topic_of|].
  rewrite !orb_true_iff, !Nat.ltb_lt. lia.
Qed.

(** A [null] among the twitter candidates goes through the extractor, and
    the card of the topic whose window holds it cannot draw its sources. *)
Theorem null_post_breaks_card
    (data : JsVal) (l tw : list JsVal) (i k : nat) (e : JsVal) :
  RawResearchResult data = true →
  aiTopics data = Ok (JArr l) →
  twitterPosts data = Ok (JArr tw) →
  i < 8 → l !! i = Some e →
  k ∈ twitter_window (length tw) i → tw !! k = Some JNull →
  ∃ ts t err, extract data = Ok ts ∧ ts !! i = Some t ∧
              hasSources' t = Ok true ∧ renderSources' t = Throw err.
Proof.
  intros H Hl Htw Hi He Hk Hnull.
  destruct (extract_topic_at StringToNumber NumberToString data l i _ H Hl Hi He)
    as (ts & tw' & tk & th & rd & Etw & _ & _ & _ & E & Et & _).
  assert (tw' = tw) as -> by congruence.
  set (t := topic_of StringToNumber NumberToString tw tk th rd i (entry_fields e)) in *.
  assert (JNull ∈ Array_slice tw (i * 2) (i * 2 + 2)) as Hin.
  { unfold Array_slice. apply list_elem_of_omap. exists k. by split. }
  assert (hasSources' t = Ok true) as Hhas.
  { unfold t. rewrite hasSources_topic_of.
    apply twitter_window_spec in Hk.
    assert ((i * 2 <? length tw) = true) as -> by (apply Nat.ltb_lt; lia). done. }
  destruct (renderSources' t) as [views|err] eqn:Hr; [|by exists ts, t, err].
  exfalso. unfold renderSources, source_slots in Hr. cbn [map_Result] in Hr.
  apply bind_Ok_inv in Hr as (v & Hv & _).
  assert (Forall (λ post, renderable post = true) (Array_slice tw (i * 2) (i * 2 + 2)))
    as Hall by by eapply renderPlatform_Ok_posts.
  rewrite Forall_forall in Hall. by specialize (Hall JNull Hin).
Qed.

End TopicCardFacts.

(** * [App]: the login guard *)

Lemma app_logged_in_step (a : AppState) (e : AppEvent) :
  isAuthenticated a = true ∧ esosa_authenticated a = Some "true" →
  isAuthenticated (app_step a e) = true ∧
  esosa_authenticated (app_step a e) = Some "true".
Proof.
  intros [Ha Hs]. destruct e; cbn [app_step]; unfold mountApp, onLogin;
    by rewrite ?Hs.
Qed.

Lemma app_logged_in_run (a : AppState) (es : list AppEvent) :
  isAuthenticated a = true ∧ esosa_authenticated a = Some "true" →
  isAuthenticated (app_run a es) = true ∧
  esosa_authenticated (app_run a es) = Some "true".
Proof.
  revert a. induction es as [|e es IH]; intros a Ha; [done|].
  cbn. apply IH. by apply app_logged_in_step.
Qed.

(** Once [onLogin] has run, the guard is gone for good: the entry holds
    ["true"], every later page load starts authenticated, and no event
    takes the authentication back. *)
Theorem login_is_permanent (a : AppState) (es es' : list AppEvent) :
  isAuthenticated (app_run a (es ++ Login :: es')) = true ∧
  esosa_authenticated (app_run a (es ++ Login :: es')) = Some "true" ∧
  showsLoginModal (app_run a (es ++ Login :: es')) = false.
Proof.
  unfold app_run. rewrite foldl_app. cbn [foldl].
  destruct (app_logged_in_run (app_step (foldl app_step a es) Login) es') as [H1 H2];
    [done|].
  unfold showsLoginModal, app_run in *. by rewrite H1, H2.
Qed.

(** Without [onLogin] nothing opens the page: as long as the entry is not
    exactly ["true"], page loads leave the guard up and the entry as it
    was. *)
Theorem guard_until_login (a : AppState) (es : list AppEvent) :
  isAuthenticated a = false →
  esosa_authenticated a ≠ Some "true" →
  Login ∉ es →
  isAuthenticated (app_run a es) = false ∧
  esosa_authenticated (app_run a es) = esosa_authenticated a ∧
  showsLoginModal (app_run a es) = true.
Proof.
  revert a. induction es as [|e es IH]; intros a Ha Hs Hes.
  { unfold showsLoginModal. cbn. by rewrite Ha. }
  apply not_elem_of_cons in Hes as [He Hes]. destruct e; [|done].
  assert (app_step a AppMount = a) as Hstep.
  { cbn. unfold mountApp. destruct a as [auth [s|]]; cbn in *; subst auth.
    - destruct (String.eqb_spec s "true") as [->|]; [done|]. done.
    - done. }
  cbn [app_run foldl]. rewrite Hstep. by apply IH.
Qed.

(** * [LoginModal]: the hexadecimal text of the digest *)

Lemma hex_cons (b : Byte.byte) (bs : list Byte.byte) :
  hex (b :: bs) = padStart2 (toString16 b) +:+ hex bs.
Proof.
  unfold hex. destruct bs as [|b' bs]; cbn [fmap list_fmap String.concat].
  - by rewrite append_nil_r.
  - reflexivity.
Qed.

Lemma hex_byte (b : Byte.byte) :
  ∃ hi lo, padStart2 (toString16 b) = String hi (String lo EmptyString) ∧
           unhex_digit hi = Some (Byte.to_nat b / 16) ∧
           unhex_digit lo = Some (Byte.to_nat b mod 16).
Proof. destruct b; by eexists _, _. Qed.

Lemma hex_shape (hashArray : list Byte.byte) :
  String.length (hex hashArray) = 2 * length hashArray ∧
  Forall (λ c, is_Some (unhex_digit c)) (String.list_ascii_of_string (hex hashArray)).
Proof.
  induction hashArray as [|b bs (Hlen & Hall)]; [by repeat constructor|].
  rewrite hex_cons.
  destruct (hex_byte b) as (hi & lo & -> & Hhi & Hlo).
  rewrite !append_cons, append_nil_l. split; [cbn; lia|].
  cbn [String.list_ascii_of_string]. by repeat (constructor; [by eexists|]).
Qed.

Lemma unhex_hex (hashArray : list Byte.byte) :
  unhex (hex hashArray) = Some hashArray.
Proof.
  induction hashArray as [|b bs Hun]; [done|].
  rewrite hex_cons.
  destruct (hex_byte b) as (hi & lo & -> & Hhi & Hlo).
  rewrite !append_cons, append_nil_l.
  cbn [unhex]. rewrite Hhi, Hlo, Hun.
  replace (16 * (Byte.to_nat b / 16) + Byte.to_nat b mod 16) with (Byte.to_nat b)
    by (rewrite (Nat.div_mod_eq (Byte.to_nat b) 16) at 1; lia).
  by rewrite Byte.of_to_nat.
Qed.

(** The text has two characters per byte of the digest, all of them
    digits or lowercase letters from [a] to [f], and the digest can be
    read back from it: two digests with the same text are equal. *)
Theorem hex_roundtrip (hashArray : list Byte.byte) :
  String.length (hex hashArray) = 2 * length hashArray ∧
  Forall (λ c, is_Some (unhex_digit c)) (String.list_ascii_of_string (hex hashArray)) ∧
  unhex (hex hashArray) = Some hashArray.
Proof.
  destruct (hex_shape hashArray) as [Hlength Hdigits].
  split; [done|]. split; [done|]. apply unhex_hex.
Qed.

Section LoginModalFacts.

Variable toLowerCase : string → string.
Variable encode : string → list Byte.byte.
Variable SHA256 : list Byte.byte → list Byte.byte.
Variable TARGET_HASH : JsVal.

Abbreviation accepts' := (accepts toLowerCase encode SHA256 TARGET_HASH).

(** A secret word is only accepted when [VITE_ACCESS_HASH] is the
    lowercase hexadecimal text of its digest, two characters per byte: with
    the variable missing, or a hash written in capitals, nobody gets in. *)
Theorem accepts_needs_lowercase_hex (password : string) :
  accepts' password = true →
  ∃ h, TARGET_HASH = JStr h ∧
       unhex h = Some (SHA256 (encode (toLowerCase password))) ∧
       String.length h = 2 * length (SHA256 (encode (toLowerCase password))) ∧
       Forall (λ c, is_Some (unhex_digit c)) (String.list_ascii_of_string h).
Proof.
  unfold accepts, hashString. destruct TARGET_HASH as [| | | |h| |]; try done.
  intros <-%String.eqb_eq. eexists. split; [done|].
  split; [apply unhex_hex | apply hex_shape].
Qed.

End LoginModalFacts.

(** * The further properties on sample data *)

Lemma extract_output_well_formed_witness :
  extract0 zero_score_result
    = Ok [topic_of (λ _, NaN) (λ _, "") [] [] [] [] 0 zero_with_score;
          topic_of (λ _, NaN) (λ _, "") [] [] [] [] 1 zero_alone] ∧
  well_formed_at 1 (topic_of (λ _, NaN) (λ _, "") [] [] [] [] 1 zero_alone).
Proof.
  split; [vm_compute; reflexivity|].
  eapply (extract_output_well_formed (λ _, NaN) (λ _, "") zero_score_result);
    vm_compute; reflexivity.
Defined.

Lemma extract_without_topics_witness :
  aiTopics (JObj {[ "reddit_results" := JObj {[ "sample_posts" := lit 3 ]} ]})
    = Ok (JArr []) ∧
  extract0 (JObj {[ "reddit_results" := JObj {[ "sample_posts" := lit 3 ]} ]}) = Ok [].
Proof.
  split; [vm_compute; reflexivity|].
  apply extract_without_topics; vm_compute; reflexivity.
Defined.

Lemma extract_null_entry_witness :
  aiTopics (JObj {[ "ranked_topics" := JArr [JObj ∅; JNull] ]})
    = Ok (JArr [JObj ∅; JNull]) ∧
  ∃ err, extract0 (JObj {[ "ranked_topics" := JArr [JObj ∅; JNull] ]}) = Throw err.
Proof.
  split; [vm_compute; reflexivity|].
  apply (extract_null_entry (λ _, NaN) (λ _, "") _ [JObj ∅; JNull] 1 JNull);
    evaluate.
Defined.

Lemma ranked_topics_shadow_suggestions_witness :
  ({[ "ranked_topics" := JArr [] ]} : gmap string JsVal) !! "ranked_topics"
    = Some (JArr []) ∧
  extract0 (JObj (<["ai_topic_suggestions" := JObj {[ "topics" := JArr sample_entries ]}]>
                    {[ "ranked_topics" := JArr [] ]}))
    = extract0 (JObj {[ "ranked_topics" := JArr [] ]}) ∧
  extract0 (JObj {[ "ranked_topics" := JArr [] ]}) = Ok [].
Proof.
  split; [vm_compute; reflexivity|].
  destruct (ranked_topics_shadow_suggestions (λ _, NaN) (λ _, "")
              {[ "ranked_topics" := JArr [] ]} []
              (JObj {[ "topics" := JArr sample_entries ]})) as [H1 H2];
    [vm_compute; reflexivity|].
  split; [exact H1 | by apply H2].
Defined.

Lemma extract_first_eight_only_witness :
  take 8 ten_entries = take 8 ten_entries_null_last ∧
  extract0 (JObj (<["ranked_topics" := JArr ten_entries]> ∅))
  = extract0 (JObj (<["ranked_topics" := JArr ten_entries_null_last]> ∅)).
Proof.
  split; [reflexivity|]. by apply extract_first_eight_only.
Defined.

Lemma sources_are_candidate_prefixes_witness :
  RawResearchResult sample_result = true ∧
  ∃ ts, extract0 sample_result = Ok ts ∧
    mjoin ((λ t, posts_of (twitter (sources t))) <$> ts) = take (2 * length ts) sample_tweets ∧
    mjoin ((λ t, posts_of (tiktok (sources t))) <$> ts) = take (length ts) sample_captions ∧
    mjoin ((λ t, posts_of (threads (sources t))) <$> ts) = take (length ts) [] ∧
    mjoin ((λ t, posts_of (reddit (sources t))) <$> ts) = take (length ts) sample_titles.
Proof.
  split; [vm_compute; reflexivity|].
  apply sources_are_candidate_prefixes; vm_compute; reflexivity.
Defined.

Lemma getPdfUrl_spec_witness :
  get_opt (JObj {[ "pdf_report" := JStr "output/reports/episode.pdf" ]}) "pdf_report"
    = Ok (JStr "output/reports/episode.pdf") ∧
  ∃ dir filename,
    getPdfUrl "http://localhost:8000"
      (JObj {[ "pdf_report" := JStr "output/reports/episode.pdf" ]})
      = Ok (JStr ("http://localhost:8000" +:+ "/output/" +:+ filename)) ∧
    "output/reports/episode.pdf" = dir +:+ filename ∧
    occurs slash filename = false ∧
    occurs backslash filename = false ∧
    (dir = EmptyString ∨ ends_with_separator dir).
Proof.
  split; [vm_compute; reflexivity|].
  destruct (getPdfUrl_spec "http://localhost:8000"
              (JObj {[ "pdf_report" := JStr "output/reports/episode.pdf" ]})
              (JStr "output/reports/episode.pdf")) as (_ & _ & H);
    [vm_compute; reflexivity|].
  by apply H.
Defined.

Lemma draft_then_answers_witness :
  let es := [EpisodeResolved (JObj {[ "topic" := JStr "Earlier" ]});
             EpisodeRejected (TypeError "Failed to fetch")] in
  let s := episode_run {| selectedTopic := None; episodeData := JNull;
                          episodeLoading := false |}
             (DraftEpisode sample_topic :: es) in
  forallb is_answer es = true ∧
  selectedTopic s = Some sample_topic ∧
  episodeLoading s = false ∧
  episodeData s = JObj {[ "error" := JStr "Failed to fetch" ]}.
Proof.
  split; [reflexivity|].
  destruct (draft_then_answers
              {| selectedTopic := None; episodeData := JNull; episodeLoading := false |}
              sample_topic
              [EpisodeResolved (JObj {[ "topic" := JStr "Earlier" ]});
               EpisodeRejected (TypeError "Failed to fetch")] eq_refl)
    as (H1 & _ & _ & H2).
  split; [exact H1|].
  apply (H2 [EpisodeResolved (JObj {[ "topic" := JStr "Earlier" ]})]
            (EpisodeRejected (TypeError "Failed to fetch")) eq_refl).
Defined.

Lemma close_then_answers_witness :
  forallb is_answer [EpisodeResolved (JObj {[ "topic" := JStr "Late" ]})] = true ∧
  showsEpisodeModal
    (episode_run {| selectedTopic := Some sample_topic; episodeData := JNull;
                    episodeLoading := true |}
       [CloseEpisodeModal; EpisodeResolved (JObj {[ "topic" := JStr "Late" ]})])
  = false.
Proof. split; [reflexivity|]. by apply close_then_answers. Defined.

Lemma one_main_view_witness :
  let w := step (λ _, NaN) (λ _, "") (λ _, "[]") (λ _, []) fresh GenerateIdeas in
  showsLoading w = true ∧ topics w = [] ∧ showsError w = false.
Proof.
  split; [reflexivity|].
  apply (proj2 (one_main_view (λ _, NaN) (λ _, "") (λ _, "[]") (λ _, [])
                  fresh GenerateIdeas)).
  reflexivity.
Defined.


Lemma renderPlatform_total_witness :
  Forall (λ post, renderable post = true)
    [JStr "p0"; JObj {[ "title" := JStr "A title"; "url" := JStr "https://x.example" ]}] ∧
  (∃ views,
     renderPlatform (λ _, "")
       (JArr [JStr "p0";
              JObj {[ "title" := JStr "A title"; "url" := JStr "https://x.example" ]}])
     = Ok views) ∧
  renderable (JObj {[ "text" := JObj {[ "a" := lit 1 ]} ]}) = false ∧
  ∃ err, renderPlatform (λ _, "") (JArr [JObj {[ "text" := JObj {[ "a" := lit 1 ]} ]}])
         = Throw err.
Proof.
  assert (Forall (λ post, renderable post = true)
            [JStr "p0";
             JObj {[ "title" := JStr "A title"; "url" := JStr "https://x.example" ]}])
    as H by (repeat constructor; vm_compute; reflexivity).
  split; [exact H|]. split; [by apply renderPlatform_total|].
  split; [vm_compute; reflexivity|]. eexists. vm_compute. reflexivity.
Defined.


Lemma hasSources_of_extracted_witness :
  RawResearchResult sample_result = true ∧
  ∃ ts t shown, extract0 sample_result = Ok ts ∧ ts !! 2 = Some t ∧
    hasSources (λ _, NaN) (λ _, "") t = Ok shown ∧
    (shown = true ↔
       2 * 2 < length sample_tweets ∨ 2 < length sample_captions
       ∨ 2 < length ([] : list JsVal) ∨ 2 < length sample_titles).
Proof.
  split; [vm_compute; reflexivity|].
  apply (hasSources_of_extracted (λ _, NaN) (λ _, "") sample_result sample_entries
           sample_tweets sample_captions [] sample_titles 2 (JObj ∅)); evaluate.
Defined.

Lemma null_post_breaks_card_witness :
  RawResearchResult null_tweet_result = true ∧
  (2 ∈ twitter_window 4 1) ∧
  ∃ ts t err, extract0 null_tweet_result = Ok ts ∧ ts !! 1 = Some t ∧
              hasSources (λ _, NaN) (λ _, "") t = Ok true ∧
              renderSources (λ _, "") t = Throw err.
Proof.
  split; [vm_compute; reflexivity|].
  assert (2 ∈ twitter_window 4 1) as Hk by (apply twitter_window_spec; lia).
  split; [exact Hk|].
  apply (null_post_breaks_card (λ _, NaN) (λ _, "") null_tweet_result sample_entries
           [JStr "p0"; JStr "p1"; JNull; JStr "p3"] 1 2
           (JObj {[ "topic" := JStr "Side hustles"; "score" := lit 8;
                    "reasoning" := JStr "Trending on every platform" ]}));
    first [exact Hk | evaluate].
Defined.

Lemma guard_until_login_witness :
  (Login ∉ [AppMount; AppMount]) ∧
  showsLoginModal
    (app_run {| isAuthenticated := false; esosa_authenticated := Some "TRUE" |}
       [AppMount; AppMount]) = true.
Proof.
  assert (Login ∉ [AppMount; AppMount]) as H.
  { intros [?|[?|?%elem_of_nil]%elem_of_cons]%elem_of_cons; done. }
  split; [exact H|].
  by apply (guard_until_login
              {| isAuthenticated := false; esosa_authenticated := Some "TRUE" |}
              [AppMount; AppMount]).
Defined.

Lemma accepts_needs_lowercase_hex_witness :
  accepts (λ s, s) (λ _, [Byte.x0a; Byte.xff]) (λ bs, bs) (JStr "0aff") "word" = true ∧
  ∃ h, JStr "0aff" = JStr h ∧
       unhex h = Some [Byte.x0a; Byte.xff] ∧
       String.length h = 2 * length [Byte.x0a; Byte.xff] ∧
       Forall (λ c, is_Some (unhex_digit c)) (String.list_ascii_of_string h).
Proof.
  split; [reflexivity|].
  by apply (accepts_needs_lowercase_hex (λ s, s) (λ _, [Byte.x0a; Byte.xff]) (λ bs, bs)
              (JStr "0aff") "word").
Defined.

Lemma extract_returns_iff_witness :
  (∃ ts, extract0 null_tweet_result = Ok ts) ∧
  ∃ l tw tk th rd,
    aiTopics null_tweet_result = Ok (JArr l) ∧
    twitterPosts null_tweet_result = Ok tw ∧ tiktokPosts null_tweet_result = Ok tk ∧
    threadsPosts null_tweet_result = Ok th ∧ redditPosts null_tweet_result = Ok rd ∧
    (take 8 l = [] ∨
     (Forall (λ e, is_topic_entry e = true) (take 8 l) ∧
      sliceable tw = true ∧ sliceable tk = true ∧
      sliceable th = true ∧ sliceable rd = true)).
Proof.
  assert (∃ ts, extract0 null_tweet_result = Ok ts) as H
    by (eexists; vm_compute; reflexivity).
  split; [exact H|].
  by apply (proj1 (extract_returns_iff (λ _, NaN) (λ _, "") null_tweet_result)).
Defined.

Lemma suggestions_stand_in_witness :
  let m : gmap string JsVal :=
    {[ "ranked_topics" := JNull;
       "ai_topic_suggestions" := JObj {[ "topics" := JArr sample_entries ]} ]} in
  ToBoolean (field m "ranked_topics") = false ∧
  extract0 (JObj m) = extract0 (JObj (<["ranked_topics" := JArr sample_entries]> m)).
Proof.
  split; [vm_compute; reflexivity|].
  apply (suggestions_stand_in (λ _, NaN) (λ _, "") _
           {[ "topics" := JArr sample_entries ]} sample_entries);
    vm_compute; reflexivity.
Defined.
